(** * visualize.py: plots of CT image triplets and of training curves

    A shallow embedding of [src/visualize.py] (class [Visualizer] with its
    [FontsScheme] and [ColorScheme], and the module functions
    [no_spines_plot] and [no_ticks_plot]) and the theorems that settle the
    statements made about it.  [GradientColorMap], which no method of
    [Visualizer] uses, is left out.

    The Python code is glue between three libraries.  They are modelled as
    far as the code observes them:

    - NumPy arrays are a shape and the row-major list of their elements;
      elements are IEEE-754 binary floats ([spec_float] with the operations
      of [SpecFloat], which round as the hardware does).  The format of the
      tensors ([prec], [emax]: 24/128 for float32, 53/1024 for float64) is
      a parameter; [np.linspace] always works in float64.
    - Matplotlib axes and figures are records of what has been set on them.
      A method the code calls becomes a function that updates the record.
    - Exceptions are the [Raise] outcome of the monad [py].

    What the libraries compute outside IEEE arithmetic is a parameter of
    the development: [np.log10], the formatting of a float by
    [str.format], and the y-limits Matplotlib chooses when it autoscales. *)

From Stdlib Require Import ZArith QArith Ascii Floats.SpecFloat DecimalString.
From Stdlib Require DecimalZ DecimalPos.
From stdpp Require Import base list strings gmap.

Set Default Proof Using "Type".
Local Open Scope Z_scope.

(** ** Python: exceptions, strings, paths *)

Inductive exn : Type :=
  | AttributeError
  | IndexError
  | KeyError
  | TypeError
  | ValueError.

Inductive py (A : Type) : Type :=
  | Return (a : A)
  | Raise (e : exn).
Arguments Return {A} a.
Arguments Raise {A} e.

#[global] Instance py_ret : MRet py := λ A a, Return a.
#[global] Instance py_bind : MBind py := λ A B f m,
  match m with
  | Return a => f a
  | Raise e => Raise e
  end.

(** [for x in xs: s = body(x, s)], stopping at the first exception. *)
Fixpoint for_each {A S : Type} (xs : list A) (body : A → S → py S) (s : S) : py S :=
  match xs with
  | [] => Return s
  | x :: xs' => s' ← body x s; for_each xs' body s'
  end.

(** [range(n)] *)
Definition range (n : nat) : list nat := seq 0 n.
Arguments range : simpl never.

(** [str.upper] on the ASCII letters. *)
Definition ascii_upper (c : ascii) : ascii :=
  let n := nat_of_ascii c in
  if bool_decide (97 ≤ n ≤ 122)%nat then ascii_of_nat (n - 32) else c.

Fixpoint upper (s : string) : string :=
  match s with
  | EmptyString => EmptyString
  | String c s' => String (ascii_upper c) (upper s')
  end.

(** ['{:d}'.format(z)] *)
Definition format_d (z : Z) : string := NilZero.string_of_int (Z.to_int z).

(** The line feed, ['\n']. *)
Definition LF : string := String (ascii_of_nat 10) EmptyString.

(** [os.path.join(a, b)] of [posixpath]. *)
Definition starts_with_sep (s : string) : bool :=
  match s with
  | String c _ => bool_decide (c = "/"%char)
  | EmptyString => false
  end.

Fixpoint ends_with_sep (s : string) : bool :=
  match s with
  | EmptyString => false
  | String c EmptyString => bool_decide (c = "/"%char)
  | String _ s' => ends_with_sep s'
  end.

Definition path_join (a b : string) : string :=
  if starts_with_sep b then b
  else if bool_decide (a = "") || ends_with_sep a then a +:+ b
  else a +:+ "/" +:+ b.

(** A [dict] with string keys; [d[k]] raises [KeyError] on a missing key. *)
Definition dict_getitem {V : Type} (d : gmap string V) (k : string) : py V :=
  match d !! k with
  | Some v => Return v
  | None => Raise KeyError
  end.

(** ** NumPy *)

Abbreviation float := spec_float.

Record ndarray : Type := NdArray { shape : list nat; data : list float }.

#[global] Instance float_eq_dec : EqDecision float.
Proof. solve_decision. Defined.
#[global] Instance ndarray_eq_dec : EqDecision ndarray.
Proof. solve_decision. Defined.

(** Number of elements of an array of the given shape. *)
Definition size_of (s : list nat) : nat := foldr Nat.mul 1%nat s.

(** An array is well formed when its data fill its shape. *)
Definition wf_array (a : ndarray) : Prop := length (data a) = size_of (shape a).

(** [a.squeeze()]: the axes of length one are removed. *)
Definition squeeze (a : ndarray) : ndarray :=
  {| shape := filter (λ d, d ≠ 1%nat) (shape a); data := data a |}.

(** [a[idx]] for a non-negative [idx]: the sub-array at [idx] on the first
    axis; [IndexError] when [idx] is out of bounds or [a] has no axis. *)
Definition getitem (a : ndarray) (idx : nat) : py ndarray :=
  match shape a with
  | [] => Raise IndexError
  | d :: s =>
      if bool_decide (idx < d)%nat
      then Return {| shape := s;
                     data := take (size_of s) (drop (idx * size_of s) (data a)) |}
      else Raise IndexError
  end.

Definition is_nan (x : float) : bool :=
  match x with
  | S754_nan => true
  | _ => false
  end.

(** The inner loops of [np.maximum.reduce] and [np.minimum.reduce]:
    the accumulator is kept when it compares >= (<=) or is a NaN. *)
Definition maximum (acc x : float) : float :=
  if SFleb x acc || is_nan acc then acc else x.

Definition minimum (acc x : float) : float :=
  if SFleb acc x || is_nan acc then acc else x.

(** A reduction without identity: from the first element, left to right. *)
Definition reduce (f : float → float → float) (l : list float) : option float :=
  match l with
  | [] => None
  | x :: xs => Some (foldl f x xs)
  end.

(** [a.max()] and [a.min()]: [ValueError] on an array without elements. *)
Definition amax (a : ndarray) : py float :=
  match reduce maximum (data a) with
  | Some m => Return m
  | None => Raise ValueError
  end.

Definition amin (a : ndarray) : py float :=
  match reduce minimum (data a) with
  | Some m => Return m
  | None => Raise ValueError
  end.

(** Broadcasting.  [broadcast_shapes] aligns two shapes on their last axis;
    two lengths are compatible when they are equal or one of them is 1. *)
Fixpoint broadcast_rev (s t : list nat) : option (list nat) :=
  match s, t with
  | [], _ => Some t
  | _, [] => Some s
  | d :: s', e :: t' =>
      r ← broadcast_rev s' t';
      if bool_decide (d = e) then Some (d :: r)
      else if bool_decide (d = 1%nat) then Some (e :: r)
      else if bool_decide (e = 1%nat) then Some (d :: r)
      else None
  end.

Definition broadcast_shapes (s t : list nat) : option (list nat) :=
  reverse <$> broadcast_rev (reverse s) (reverse t).

(** The elements of an array of shape [s] seen at shape [t], where [s] has
    as many axes as [t] and each axis of [s] has the length of [t]'s or 1. *)
Fixpoint broadcast_data (s t : list nat) (d : list float) : list float :=
  match s, t with
  | ds :: s', dt :: t' =>
      if bool_decide (ds = dt)
      then concat ((λ i, broadcast_data s' t'
                           (take (size_of s') (drop (i * size_of s') d))) <$> seq 0 ds)
      else concat (replicate dt (broadcast_data s' t' d))
  | _, _ => d
  end.

Definition broadcast_to (a : ndarray) (t : list nat) : list float :=
  broadcast_data (replicate (length t - length (shape a)) 1%nat ++ shape a) t (data a).

Section Numpy.
(** The float format of the tensors. *)
Variables prec emax : Z.
(** [np.log10] on a scalar of that format. *)
Variable log10 : float → float.

(** Conversion of a Python [int] to the format. *)
Definition of_int (z : Z) : float := binary_normalize prec emax z 0 false.

(** [a - b] on arrays; [ValueError] when the shapes do not broadcast. *)
Definition subtract (a b : ndarray) : py ndarray :=
  match broadcast_shapes (shape a) (shape b) with
  | Some s =>
      Return {| shape := s;
                data := zip_with (SFsub prec emax) (broadcast_to a s) (broadcast_to b s) |}
  | None => Raise ValueError
  end.

(** [x ** 2] on a scalar, and on each element of an array. *)
Definition square (x : float) : float := SFmul prec emax x x.

Definition asquare (a : ndarray) : ndarray :=
  {| shape := shape a; data := square <$> data a |}.

(** [a.mean()]: the sum of the elements divided by their number; the sum
    of no element is 0.  NumPy adds pairwise, which rounds differently from
    this left-to-right sum; no statement below depends on the order of the
    additions. *)
Definition fsum (l : list float) : float :=
  default (S754_zero false) (reduce (SFadd prec emax) l).

Definition fmean (l : list float) : float :=
  SFdiv prec emax (fsum l) (of_int (Z.of_nat (length l))).

Definition mean (a : ndarray) : float := fmean (data a).
End Numpy.

(** *** [np.linspace] and [astype('int')], in float64 *)

Module F64.
Definition prec : Z := 53.
Definition emax : Z := 1024.
Definition of_int : Z → float := of_int prec emax.
Definition add : float → float → float := SFadd prec emax.
Definition sub : float → float → float := SFsub prec emax.
Definition mul : float → float → float := SFmul prec emax.
Definition div : float → float → float := SFdiv prec emax.
Definition eqb : float → float → bool := SFeqb.
End F64.

(** [y[-1] = v] on a non-empty list. *)
Definition set_last (y : list float) (v : float) : list float :=
  match y with
  | [] => []
  | _ => <[pred (length y) := v]> y
  end.

(** [np.linspace(start, stop, num)] with [endpoint=True], as NumPy
    computes it: the samples are [i * step + start] with
    [step = (stop - start) / (num - 1)], and the last one is set to [stop]. *)
Definition linspace (start stop : float) (num : nat) : list float :=
  let div := (num - 1)%nat in
  let delta := F64.sub stop start in
  let y := (λ i, F64.of_int (Z.of_nat i)) <$> seq 0 num in
  let y :=
    if bool_decide (0 < div)%nat then
      let step := F64.div delta (F64.of_int (Z.of_nat div)) in
      if F64.eqb step (S754_zero false)
      then (λ v, F64.mul (F64.div v (F64.of_int (Z.of_nat div))) delta) <$> y
      else (λ v, F64.mul v step) <$> y
    else (λ v, F64.mul v delta) <$> y in
  let y := (λ v, F64.add v start) <$> y in
  if bool_decide (1 < num)%nat then set_last y stop else y.

(** [x.astype('int')]: the C conversion of a double to a 64-bit integer.
    It truncates toward zero; a value that does not fit, an infinity or a
    NaN gives the least 64-bit integer (the x86-64 result). *)
Definition int64_min : Z := - 2 ^ 63.

Definition astype_int (x : float) : Z :=
  match x with
  | S754_zero _ => 0
  | S754_finite s m e =>
      let z := cond_Zopp s (Z.shiftl (Z.pos m) e) in
      if bool_decide (- 2 ^ 63 ≤ z < 2 ^ 63) then z else int64_min
  | _ => int64_min
  end.

(** ** Matplotlib: what the code sets on axes and figures *)

Record FontProperties : Type :=
  { fname : string; font_size : Z; font_style : string }.

Record Text : Type :=
  { text : string; fontproperties : FontProperties; color : string }.

Record AxesImage : Type := { image_data : ndarray; cmap : string }.

Record Line2D : Type := { ydata : list float; line_color : string; lw : Q }.

Record TickLabels : Type :=
  { ticklabels : list string; ticklabels_font : FontProperties; ticklabels_color : string }.

Record TickParams : Type :=
  { tick_axis : string; tick_color : string; tick_length : Q; tick_width : Q }.

Record Legend : Type :=
  { legend_labels : list string; legend_prop : FontProperties; framealpha : Q }.

Inductive spine : Type := top | right | bottom | left.

(** The state of one [Axes].  A field is [None] (or empty, or [true] for a
    spine) until the code sets it. *)
Record Axes : Type := mkAxes
  { spine_top : bool;
    spine_right : bool;
    spine_bottom : bool;
    spine_left : bool;
    facecolor : option string;
    aspect : option string;
    images : list AxesImage;
    lines : list Line2D;
    xlim : option (Z * Z);
    ylim : option (float * float);
    xticks : option (list Z);
    yticks : option (list float);
    xticklabels : option TickLabels;
    yticklabels : option TickLabels;
    tick_params : option TickParams;
    xlabel : option Text;
    ylabel : option Text;
    title : option Text;
    legend : option Legend }.

Definition new_axes : Axes :=
  mkAxes true true true true None None [] [] None None None None None None None
         None None None None.

(** [axis.spines[s].set_visible(b)] *)
Definition set_visible (s : spine) (b : bool) (ax : Axes) : Axes :=
  let 'mkAxes st sr sb sl fc asp ims lns xl yl xt yt xtl ytl tp xlab ylab ttl lg := ax in
  match s with
  | top => mkAxes b sr sb sl fc asp ims lns xl yl xt yt xtl ytl tp xlab ylab ttl lg
  | right => mkAxes st b sb sl fc asp ims lns xl yl xt yt xtl ytl tp xlab ylab ttl lg
  | bottom => mkAxes st sr b sl fc asp ims lns xl yl xt yt xtl ytl tp xlab ylab ttl lg
  | left => mkAxes st sr sb b fc asp ims lns xl yl xt yt xtl ytl tp xlab ylab ttl lg
  end.

Definition set_facecolor (c : string) (ax : Axes) : Axes :=
  let 'mkAxes st sr sb sl _ asp ims lns xl yl xt yt xtl ytl tp xlab ylab ttl lg := ax in
  mkAxes st sr sb sl (Some c) asp ims lns xl yl xt yt xtl ytl tp xlab ylab ttl lg.

Definition set_aspect (a : string) (ax : Axes) : Axes :=
  let 'mkAxes st sr sb sl fc _ ims lns xl yl xt yt xtl ytl tp xlab ylab ttl lg := ax in
  mkAxes st sr sb sl fc (Some a) ims lns xl yl xt yt xtl ytl tp xlab ylab ttl lg.

(** The shapes [imshow] takes: (M, N), (M, N, 3) and (M, N, 4); a last
    axis of length one is dropped first. *)
Definition image_shape_ok (s : list nat) : bool :=
  match s with
  | [_; _] => true
  | [_; _; c] => bool_decide (c = 1 ∨ c = 3 ∨ c = 4)%nat
  | _ => false
  end.

(** [axis.imshow(X, cmap=c)]: [TypeError] on an invalid shape. *)
Definition imshow (X : ndarray) (c : string) (ax : Axes) : py Axes :=
  if image_shape_ok (shape X) then
    let 'mkAxes st sr sb sl fc asp ims lns xl yl xt yt xtl ytl tp xlab ylab ttl lg := ax in
    Return (mkAxes st sr sb sl fc asp (ims ++ [{| image_data := X; cmap := c |}]) lns
                   xl yl xt yt xtl ytl tp xlab ylab ttl lg)
  else Raise TypeError.

(** [axis.plot(y, color=c, lw=w)]: one more line, drawn over the earlier ones. *)
Definition plot (y : list float) (c : string) (w : Q) (ax : Axes) : Axes :=
  let 'mkAxes st sr sb sl fc asp ims lns xl yl xt yt xtl ytl tp xlab ylab ttl lg := ax in
  mkAxes st sr sb sl fc asp ims (lns ++ [{| ydata := y; line_color := c; lw := w |}])
         xl yl xt yt xtl ytl tp xlab ylab ttl lg.

Definition set_xlim (l : Z * Z) (ax : Axes) : Axes :=
  let 'mkAxes st sr sb sl fc asp ims lns _ yl xt yt xtl ytl tp xlab ylab ttl lg := ax in
  mkAxes st sr sb sl fc asp ims lns (Some l) yl xt yt xtl ytl tp xlab ylab ttl lg.

Definition set_ylim (l : float * float) (ax : Axes) : Axes :=
  let 'mkAxes st sr sb sl fc asp ims lns xl _ xt yt xtl ytl tp xlab ylab ttl lg := ax in
  mkAxes st sr sb sl fc asp ims lns xl (Some l) xt yt xtl ytl tp xlab ylab ttl lg.

Definition set_xticks (t : list Z) (ax : Axes) : Axes :=
  let 'mkAxes st sr sb sl fc asp ims lns xl yl _ yt xtl ytl tp xlab ylab ttl lg := ax in
  mkAxes st sr sb sl fc asp ims lns xl yl (Some t) yt xtl ytl tp xlab ylab ttl lg.

Definition set_yticks (t : list float) (ax : Axes) : Axes :=
  let 'mkAxes st sr sb sl fc asp ims lns xl yl xt _ xtl ytl tp xlab ylab ttl lg := ax in
  mkAxes st sr sb sl fc asp ims lns xl yl xt (Some t) xtl ytl tp xlab ylab ttl lg.

Definition set_xticklabels (l : list string) (f : FontProperties) (c : string)
    (ax : Axes) : Axes :=
  let 'mkAxes st sr sb sl fc asp ims lns xl yl xt yt _ ytl tp xlab ylab ttl lg := ax in
  mkAxes st sr sb sl fc asp ims lns xl yl xt yt
         (Some {| ticklabels := l; ticklabels_font := f; ticklabels_color := c |})
         ytl tp xlab ylab ttl lg.

Definition set_yticklabels (l : list string) (f : FontProperties) (c : string)
    (ax : Axes) : Axes :=
  let 'mkAxes st sr sb sl fc asp ims lns xl yl xt yt xtl _ tp xlab ylab ttl lg := ax in
  mkAxes st sr sb sl fc asp ims lns xl yl xt yt xtl
         (Some {| ticklabels := l; ticklabels_font := f; ticklabels_color := c |})
         tp xlab ylab ttl lg.

Definition set_tick_params (p : TickParams) (ax : Axes) : Axes :=
  let 'mkAxes st sr sb sl fc asp ims lns xl yl xt yt xtl ytl _ xlab ylab ttl lg := ax in
  mkAxes st sr sb sl fc asp ims lns xl yl xt yt xtl ytl (Some p) xlab ylab ttl lg.

Definition set_xlabel (s : string) (f : FontProperties) (c : string) (ax : Axes) : Axes :=
  let 'mkAxes st sr sb sl fc asp ims lns xl yl xt yt xtl ytl tp _ ylab ttl lg := ax in
  mkAxes st sr sb sl fc asp ims lns xl yl xt yt xtl ytl tp
         (Some {| text := s; fontproperties := f; color := c |}) ylab ttl lg.

Definition set_ylabel (s : string) (f : FontProperties) (c : string) (ax : Axes) : Axes :=
  let 'mkAxes st sr sb sl fc asp ims lns xl yl xt yt xtl ytl tp xlab _ ttl lg := ax in
  mkAxes st sr sb sl fc asp ims lns xl yl xt yt xtl ytl tp xlab
         (Some {| text := s; fontproperties := f; color := c |}) ttl lg.

Definition set_title (s : string) (f : FontProperties) (c : string) (ax : Axes) : Axes :=
  let 'mkAxes st sr sb sl fc asp ims lns xl yl xt yt xtl ytl tp xlab ylab _ lg := ax in
  mkAxes st sr sb sl fc asp ims lns xl yl xt yt xtl ytl tp xlab ylab
         (Some {| text := s; fontproperties := f; color := c |}) lg.

Definition set_legend (l : list string) (f : FontProperties) (a : Q) (ax : Axes) : Axes :=
  let 'mkAxes st sr sb sl fc asp ims lns xl yl xt yt xtl ytl tp xlab ylab ttl _ := ax in
  mkAxes st sr sb sl fc asp ims lns xl yl xt yt xtl ytl tp xlab ylab ttl
         (Some {| legend_labels := l; legend_prop := f; framealpha := a |}).

(** A figure: its size, the grid spacing it was created with, and the grid
    of its axes (a list of rows). *)
Record Figure : Type :=
  { figsize : Z * Z; gridspec_kw : list (string * Q); axes : list (list Axes) }.

(** [plt.subplots(nrows, ncols, figsize=.., gridspec_kw=..)] *)
Definition subplots (nrows ncols : nat) (size : Z * Z) (kw : list (string * Q)) : Figure :=
  {| figsize := size; gridspec_kw := kw;
     axes := replicate nrows (replicate ncols new_axes) |}.

(** The axes [ax[r, c]] of a figure ([ax[c]] when the grid has one row). *)
Definition get_axes (fig : Figure) (r c : nat) : option Axes :=
  row ← axes fig !! r; row !! c.

(** A call [f(ax[r, c], ..)] that changes the axes in place. *)
Definition on_axes (r c : nat) (f : Axes → py Axes) (fig : Figure) : py Figure :=
  match axes fig !! r with
  | Some row =>
      match row !! c with
      | Some ax =>
          ax' ← f ax;
          Return {| figsize := figsize fig; gridspec_kw := gridspec_kw fig;
                    axes := <[r := <[c := ax']> row]> (axes fig) |}
      | None => Raise IndexError
      end
  | None => Raise IndexError
  end.

(** The effect of [plt.savefig(path)] followed by [plt.close(fig)]: the
    figure is written to the file at [path]. *)
Record SavedFigure : Type := { path : string; saved : Figure }.

(** ** The module *)

(** *** Module functions *)

Definition no_spines_plot (axis : Axes) : Axes :=
  let axis := set_visible top false axis in
  let axis := set_visible right false axis in
  let axis := set_visible bottom false axis in
  set_visible left false axis.

Definition no_ticks_plot (axis : Axes) : Axes :=
  let axis := set_xticks [] axis in
  set_yticks [] axis.

(** *** [FontsScheme], [ColorScheme]

    The constructor of [FontsScheme] first fetches and unpacks the font
    archive when it is absent; the model starts once the files are there. *)
Record FontsScheme : Type :=
  { title_font : FontProperties;
    labels_font : FontProperties;
    text_font : FontProperties;
    textS_font : FontProperties }.

Definition FontsScheme_init (fonts_dir : string) : FontsScheme :=
  let regular_font_path := path_join fonts_dir "avenir_ff/AvenirLTStd-Book.otf" in
  {| title_font := {| fname := regular_font_path; font_size := 16; font_style := "normal" |};
     labels_font := {| fname := regular_font_path; font_size := 14; font_style := "normal" |};
     text_font := {| fname := regular_font_path; font_size := 12; font_style := "normal" |};
     textS_font := {| fname := regular_font_path; font_size := 12; font_style := "normal" |} |}.

Record ColorScheme : Type :=
  { coral : string; yellow : string; lilac : string; cream : string;
    creamT : string; dark : string; darkT : string }.

Definition ColorScheme_init : ColorScheme :=
  {| coral := "#f56958"; yellow := "#f6e813"; lilac := "#a051a0"; cream := "#fef6e9";
     creamT := "#fef6e959"; dark := "#1a1416"; darkT := "#1a1416bf" |}.

(** *** [Visualizer] *)

Record Visualizer : Type :=
  { _plots_dir : string; _colors : ColorScheme; _fonts : FontsScheme }.

Definition Visualizer_init (fonts_dir plots_dir : string) : Visualizer :=
  {| _plots_dir := plots_dir;
     _colors := ColorScheme_init;
     _fonts := FontsScheme_init fonts_dir |}.

(** An argument of the triplet methods: a (CPU, detached) torch tensor, or
    a plain NumPy array.  Both have [squeeze]; only the tensor has [numpy]. *)
Inductive pyobj : Type :=
  | Tensor (a : ndarray)
  | Array (a : ndarray).

Definition obj_squeeze (o : pyobj) : py pyobj :=
  match o with
  | Tensor a => Return (Tensor (squeeze a))
  | Array a => Return (Array (squeeze a))
  end.

Definition obj_numpy (o : pyobj) : py ndarray :=
  match o with
  | Tensor a => Return a
  | Array _ => Raise AttributeError
  end.


(** ** Sample inputs

    The inputs of the examples that close the development.  The library
    functions the development leaves open get a stand-in there: the
    examples use [np.log10] at an infinity, at a NaN and at 100 only. *)

(** [np.log10] where IEEE 754 fixes it or where it is exact; NaN elsewhere. *)
Definition log10_special (x : float) : float :=
  match x with
  | S754_infinity false => S754_infinity false
  | S754_finite false 7036874417766400 (-46) => S754_finite false 4503599627370496 (-51)
  | S754_finite false 13107200 (-17) => S754_finite false 8388608 (-22)
  | _ => S754_nan
  end.

(** [str.format] of a float: 'inf' and 'nan' as Python writes them, and a
    placeholder for the digits of a number. *)
Definition format_special (digits : nat) (x : float) : string :=
  match x with
  | S754_infinity false => "inf"
  | S754_infinity true => "-inf"
  | S754_nan => "nan"
  | _ => "#"
  end.

(** The y-limits of axes: Matplotlib's default, (0.0, 1.0). *)
Definition ylim_unit (ax : Axes) : float * float := (F64.of_int 0, F64.of_int 1).

Definition sample_visualizer : Visualizer := Visualizer_init "fonts" "plots".

(** A tensor of [n] one-channel images of [h] by [w] pixels, of shape
    (n, 1, h, w), and the same data as a plain array. *)
Definition batch_array (n h w : nat) (px : nat → list float) : ndarray :=
  {| shape := [n; 1; h; w]%nat; data := flat_map px (seq 0 n) |}.

(** Image [i] with the pixel values [i + v], [i + v + 1], ... *)
Definition ramp (k : nat) (v : Z) (i : nat) : list float :=
  (λ j, F64.of_int (Z.of_nat (i + j) + v)) <$> seq 0 k.

Definition sample_lr : pyobj := Tensor (batch_array 8 2 2 (ramp 4 0)).
Definition sample_sr : pyobj := Tensor (batch_array 8 4 4 (ramp 16 1)).
Definition sample_hr : pyobj := Tensor (batch_array 8 4 4 (ramp 16 0)).

(** Nine and ten images that are those of [sample_hr] up to the eighth. *)
Definition sample_hr_9 : pyobj := Tensor (batch_array 9 4 4 (ramp 16 0)).
Definition sample_hr_10 : pyobj :=
  Tensor (batch_array 10 4 4 (λ i, if bool_decide (i < 8)%nat then ramp 16 0 i
                                   else ramp 16 100 i)).

(** A flat image: its pixels are 0 and 2^-600, whose square is below the
    least positive float64. *)
Definition tiny : float := S754_finite false 4503599627370496 (-652).
Definition sample_flat : pyobj :=
  Tensor (batch_array 8 2 2 (λ _, [S754_zero false; tiny; S754_zero false; S754_zero false])).

(** A plain two-dimensional array. *)
Definition sample_grid : pyobj :=
  Array {| shape := [2; 2]%nat; data := F64.of_int <$> [0; 1; 2; 3] |}.

(** A high-resolution image of ten by ten pixels with maximum 1.0 and
    minimum 0.0, and a super-resolution image that differs from it by 1.0
    at one pixel: the mean squared error is 1/100. *)
Definition sample_hr_pixels : list float :=
  F64.of_int 1 :: replicate 99 (F64.of_int 0).
Definition sample_sr_pixels : list float :=
  F64.of_int 1 :: F64.of_int 1 :: replicate 98 (F64.of_int 0).

(** A training series of [n] values. *)
Definition series (n : nat) : list float := (λ i, F64.of_int (Z.of_nat i)) <$> seq 0 n.

(** Batches the triplet methods refuse or that take the metric to its
    edges. *)

(** Three images of the size of [sample_hr]'s, and a single image as a
    tensor of shape (1, 1, 4, 4), which squeezes to the image itself. *)
Definition sample_hr_3 : pyobj := Tensor (batch_array 3 4 4 (ramp 16 0)).
Definition sample_single : pyobj := Tensor (batch_array 1 4 4 (ramp 16 0)).
(** Eight images of 2 by 2 pixels with the values of [sample_hr]. *)
Definition sample_hr_small : pyobj := Tensor (batch_array 8 2 2 (ramp 4 0)).
(** Eight images without pixels, and a tensor of one element. *)
Definition sample_hr_empty : pyobj := Tensor (batch_array 8 0 4 (λ _, [])).
Definition sample_scalar : pyobj :=
  Tensor {| shape := [1; 1; 1; 1]%nat; data := [F64.of_int 1] |}.

(** Eight images whose first pixel is not a number. *)
Definition sample_nan : pyobj :=
  Tensor (batch_array 8 4 4 (λ i, S754_nan :: ramp 15 0 i)).

(** Eight images that are 1.0 everywhere, and [np.log10] as it is at the
    zeros too: minus infinity. *)
Definition sample_const : pyobj :=
  Tensor (batch_array 8 4 4 (λ _, replicate 16 (F64.of_int 1))).

Definition log10_edges (x : float) : float :=
  match x with
  | S754_zero _ => S754_infinity true
  | _ => log10_special x
  end.
Section Visualizer.
(** The float format of the tensors, [np.log10] on it, the rendering of a
    float by ['{:.<n>f}'.format] and ['{:.<n>e}'.format], and the y-limits
    [axis.get_ylim()] reports for what has been plotted on the axes. *)
Variables prec emax : Z.
Variable log10 : float → float.
Variable format_f : nat → float → string.
Variable format_e : nat → float → string.
Variable get_ylim : Axes → float * float.

Definition visualize_ct (self : Visualizer) (axis : Axes) (ct_image : ndarray)
    (title : option string) (psnr : option float) : py Axes :=
  let axis := no_spines_plot axis in
  let axis := no_ticks_plot axis in
  let axis := set_aspect "equal" axis in
  axis ← imshow ct_image "gray" axis;
  let axis :=
    match title with
    | Some title =>
        set_ylabel (upper title +:+ LF +:+ LF) (title_font (_fonts self))
                   (darkT (_colors self)) axis
    | None => axis
    end in
  let axis :=
    match psnr with
    | Some psnr =>
        set_title ("PSNR = " +:+ format_f 2 psnr +:+ LF) (labels_font (_fonts self))
                  (darkT (_colors self)) axis
    | None => axis
    end in
  Return axis.

(** The metric of lines 153-155 and 184-186, on the images of one column. *)
Definition psnr_of (hr_range mse : float) : float :=
  SFmul prec emax (of_int prec emax 10)
        (log10 (SFdiv prec emax (square prec emax hr_range) mse)).

Definition visualize_generated_ct (self : Visualizer) (lr_ct sr_ct hr_ct : pyobj)
    (epoch : Z) : py SavedFigure :=
  lr_ct ← obj_squeeze lr_ct ≫= obj_numpy;
  sr_ct ← obj_squeeze sr_ct ≫= obj_numpy;
  hr_ct ← obj_squeeze hr_ct ≫= obj_numpy;
  let fig := subplots 3 8 (20, 6) [("hspace", 0.05); ("wspace", 0.25)]%Q in
  fig ← for_each (range 8) (λ idx fig,
    let '(lr_title, sr_title, hr_title) :=
      if bool_decide (0 < idx)%nat then (@None string, @None string, @None string)
      else (Some "low-res", Some "super-res", Some "high-res") in
    hr_max ← getitem hr_ct idx ≫= amax;
    hr_min ← getitem hr_ct idx ≫= amin;
    let hr_range := SFsub prec emax hr_max hr_min in
    sr_i ← getitem sr_ct idx;
    hr_i ← getitem hr_ct idx;
    diff ← subtract prec emax sr_i hr_i;
    let mse := mean prec emax (asquare prec emax diff) in
    let psnr := psnr_of hr_range mse in
    lr_i ← getitem lr_ct idx;
    fig ← on_axes 0 idx (λ axis, visualize_ct self axis lr_i lr_title (Some psnr)) fig;
    sr_i ← getitem sr_ct idx;
    fig ← on_axes 1 idx (λ axis, visualize_ct self axis sr_i sr_title None) fig;
    hr_i ← getitem hr_ct idx;
    on_axes 2 idx (λ axis, visualize_ct self axis hr_i hr_title None) fig) fig;
  Return {| path := path_join (_plots_dir self)
                      ("visualization_epoch_" +:+ format_d (epoch + 1) +:+ ".svg");
            saved := fig |}.

Definition get_generated_ct_fig (self : Visualizer) (lr_ct sr_ct hr_ct : pyobj) : py Figure :=
  lr_ct ← obj_squeeze lr_ct ≫= obj_numpy;
  sr_ct ← obj_squeeze sr_ct ≫= obj_numpy;
  hr_ct ← obj_squeeze hr_ct ≫= obj_numpy;
  let fig := subplots 3 8 (20, 6) [("hspace", 0.05); ("wspace", 0.15)]%Q in
  fig ← for_each (range 8) (λ idx fig,
    let '(lr_title, sr_title, hr_title) :=
      if bool_decide (0 < idx)%nat then (@None string, @None string, @None string)
      else (Some "low-res", Some "super-res", Some "high-res") in
    hr_max ← getitem hr_ct idx ≫= amax;
    hr_min ← getitem hr_ct idx ≫= amin;
    let hr_range := SFsub prec emax hr_max hr_min in
    sr_i ← getitem sr_ct idx;
    hr_i ← getitem hr_ct idx;
    diff ← subtract prec emax sr_i hr_i;
    let mse := mean prec emax (asquare prec emax diff) in
    let psnr := psnr_of hr_range mse in
    lr_i ← getitem lr_ct idx;
    fig ← on_axes 0 idx (λ axis, visualize_ct self axis lr_i lr_title (Some psnr)) fig;
    sr_i ← getitem sr_ct idx;
    fig ← on_axes 1 idx (λ axis, visualize_ct self axis sr_i sr_title None) fig;
    hr_i ← getitem hr_ct idx;
    on_axes 2 idx (λ axis, visualize_ct self axis hr_i hr_title None) fig) fig;
  Return fig.

Definition plot_loss (self : Visualizer) (axis : Axes) (train_loss val_loss : list float)
    : Axes :=
  let axis := set_visible top false axis in
  let axis := set_visible right false axis in
  let axis := set_facecolor (darkT (_colors self)) axis in
  let axis := plot val_loss (creamT (_colors self)) 1 axis in
  let axis := plot train_loss (coral (_colors self)) 1 axis in
  let xlim := (0, Z.of_nat (length train_loss)) in
  let xticks := astype_int <$> linspace (F64.of_int xlim.1) (F64.of_int xlim.2) 11 in
  let axis := set_xlim xlim axis in
  let axis := set_xticks xticks axis in
  let axis := set_xticklabels (format_d <$> xticks) (textS_font (_fonts self))
                              (darkT (_colors self)) axis in
  let ylim := get_ylim axis in
  let axis := set_ylim ylim axis in
  let yticks := linspace ylim.1 ylim.2 6 in
  let axis := set_yticks yticks axis in
  let axis := set_yticklabels (format_f 3 <$> yticks) (textS_font (_fonts self))
                              (darkT (_colors self)) axis in
  let axis := set_tick_params {| tick_axis := "both"; tick_color := "black";
                                 tick_length := 3; tick_width := 0.75 |} axis in
  let axis := set_title ("PERCEPTUAL LOSS" +:+ LF) (labels_font (_fonts self))
                        (darkT (_colors self)) axis in
  set_legend ["Validation"; "Train"] (text_font (_fonts self)) 0.25 axis.

Definition plot_psnr (self : Visualizer) (axis : Axes) (train_psnr val_psnr : list float)
    : Axes :=
  let axis := set_visible top false axis in
  let axis := set_visible right false axis in
  let axis := set_facecolor (darkT (_colors self)) axis in
  let axis := plot val_psnr (creamT (_colors self)) 1 axis in
  let axis := plot train_psnr (coral (_colors self)) 1 axis in
  let xlim := (0, Z.of_nat (length train_psnr)) in
  let xticks := astype_int <$> linspace (F64.of_int xlim.1) (F64.of_int xlim.2) 11 in
  let axis := set_xlim xlim axis in
  let axis := set_xticks xticks axis in
  let axis := set_xticklabels (format_d <$> xticks) (textS_font (_fonts self))
                              (darkT (_colors self)) axis in
  let ylim := get_ylim axis in
  let axis := set_ylim ylim axis in
  let yticks := linspace ylim.1 ylim.2 6 in
  let axis := set_yticks yticks axis in
  let axis := set_yticklabels (format_f 2 <$> yticks) (textS_font (_fonts self))
                              (darkT (_colors self)) axis in
  let axis := set_tick_params {| tick_axis := "both"; tick_color := "black";
                                 tick_length := 3; tick_width := 0.75 |} axis in
  let axis := set_title ("PSNR" +:+ LF) (labels_font (_fonts self))
                        (darkT (_colors self)) axis in
  set_legend ["Validation"; "Train"] (text_font (_fonts self)) 0.25 axis.

Definition visualize_performance (self : Visualizer)
    (train_dict val_dict : gmap string (list float)) (epoch : Z) : py SavedFigure :=
  let fig := subplots 1 2 (18, 5) [("wspace", 0.25)]%Q in
  train_loss ← dict_getitem train_dict "p_loss";
  val_loss ← dict_getitem val_dict "p_loss";
  fig ← on_axes 0 0 (λ axis, Return (plot_loss self axis train_loss val_loss)) fig;
  train_psnr ← dict_getitem train_dict "psnr";
  val_psnr ← dict_getitem val_dict "psnr";
  fig ← on_axes 0 1 (λ axis, Return (plot_psnr self axis train_psnr val_psnr)) fig;
  Return {| path := path_join (_plots_dir self)
                      ("performance_epoch_" +:+ format_d (epoch + 1) +:+ ".svg");
            saved := fig |}.

Definition visualize_slice (self : Visualizer) (axis : Axes) (ct_slice : ndarray)
    (ct_name : string) (scores_dict : option (gmap string float)) : py Axes :=
  let axis := no_spines_plot axis in
  let axis := no_ticks_plot axis in
  let axis := set_aspect "equal" axis in
  axis ← imshow ct_slice "gray" axis;
  let axis := set_xlabel (LF +:+ upper ct_name) (title_font (_fonts self))
                         (darkT (_colors self)) axis in
  match scores_dict with
  | Some scores_dict =>
      mse ← dict_getitem scores_dict "mse";
      let title := " MSE " +:+ format_e 3 mse +:+ LF in
      psnr ← dict_getitem scores_dict "psnr";
      let title := title +:+ "PSNR " +:+ format_f 3 psnr +:+ LF in
      Return (set_title title (labels_font (_fonts self)) (darkT (_colors self)) axis)
  | None => Return axis
  end.

Definition visualize_full_slices (self : Visualizer) (lr_slice sr_slice hr_slice : ndarray)
    (scores_dict : gmap string float) (ct_name : string) (epoch : Z) : py SavedFigure :=
  let fig := subplots 1 3 (20, 6) [("wspace", 0.15)]%Q in
  fig ← on_axes 0 0 (λ axis, visualize_slice self axis lr_slice "low-res" None) fig;
  fig ← on_axes 0 1 (λ axis, visualize_slice self axis sr_slice "super-res"
                                             (Some scores_dict)) fig;
  fig ← on_axes 0 2 (λ axis, visualize_slice self axis hr_slice "high-res" None) fig;
  Return {| path := path_join (_plots_dir self)
                      ("test_results_" +:+ ct_name +:+ "_" +:+ format_d epoch +:+ ".svg");
            saved := fig |}.


(** ** Definitions used to state the properties *)

#[global] Instance py_fmap : FMap py := λ A B f m,
  match m with
  | Return a => Return (f a)
  | Raise e => Raise e
  end.

(** The conversion at the head of both triplet methods. *)
Definition to_numpy (o : pyobj) : py ndarray := obj_squeeze o ≫= obj_numpy.

(** The [idx]-th image of a batch [a]: what [a.squeeze()[idx]] is when the
    index is in bounds. *)
Definition image_at (a : ndarray) (idx : nat) : ndarray :=
  let s := tail (shape (squeeze a)) in
  {| shape := s; data := take (size_of s) (drop (idx * size_of s) (data a)) |}.

(** A batch of [n] non-empty two-dimensional images of [h] by [w] pixels
    (once squeezed), as a well-formed tensor. *)
Definition is_batch (n h w : nat) (o : pyobj) : Prop :=
  match o with
  | Tensor a =>
      wf_array a ∧ shape (squeeze a) = [n; h; w] ∧ (0 < h)%nat ∧ (0 < w)%nat
  | Array _ => False
  end.

(** The array inside an argument. *)
Definition array_of (o : pyobj) : ndarray :=
  match o with
  | Tensor a => a
  | Array a => a
  end.

(** The PSNR as the specification words it, from the pixels of the
    super-resolution and of the high-resolution image: ten times the
    decimal logarithm of range^2 / mse, with range = max - min of the
    high-resolution pixels and mse the mean of the squared differences. *)
Definition squared_error (s h : float) : float := square prec emax (SFsub prec emax s h).

Definition spec_psnr (sr_px hr_px : list float) : option float :=
  hi ← reduce maximum hr_px;
  lo ← reduce minimum hr_px;
  let range := SFsub prec emax hi lo in
  let mse := fmean prec emax (zip_with squared_error sr_px hr_px) in
  Some (SFmul prec emax (of_int prec emax 10)
          (log10 (SFdiv prec emax (SFmul prec emax range range) mse))).

(** The axes [visualize_ct] leaves when it starts from fresh axes and the
    image is accepted. *)
Definition shown (self : Visualizer) (ct_image : ndarray) (title : option string)
    (psnr : option float) : Axes :=
  {| spine_top := false; spine_right := false; spine_bottom := false; spine_left := false;
     facecolor := None; aspect := Some "equal";
     images := [{| image_data := ct_image; cmap := "gray" |}]; lines := [];
     xlim := None; ylim := None; xticks := Some []; yticks := Some [];
     xticklabels := None; yticklabels := None; tick_params := None;
     xlabel := None;
     ylabel := (λ t, {| text := upper t +:+ LF +:+ LF;
                        fontproperties := title_font (_fonts self);
                        color := darkT (_colors self) |}) <$> title;
     title := (λ p, {| text := "PSNR = " +:+ format_f 2 p +:+ LF;
                       fontproperties := labels_font (_fonts self);
                       color := darkT (_colors self) |}) <$> psnr;
     legend := None |}.

(** The row label of column [idx]: only the first column has one. *)
Definition row_label (idx : nat) (label : string) : option string :=
  if bool_decide (0 < idx)%nat then None else Some label.

(** The body of the loop of both triplet methods, and the figure it leaves:
    the same term as in [visualize_generated_ct] and [get_generated_ct_fig],
    named for the proofs. *)
Definition triplet_column (self : Visualizer) (lr_ct sr_ct hr_ct : ndarray)
    (idx : nat) (fig : Figure) : py Figure :=
  let '(lr_title, sr_title, hr_title) :=
    if bool_decide (0 < idx)%nat then (@None string, @None string, @None string)
    else (Some "low-res", Some "super-res", Some "high-res") in
  hr_max ← getitem hr_ct idx ≫= amax;
  hr_min ← getitem hr_ct idx ≫= amin;
  let hr_range := SFsub prec emax hr_max hr_min in
  sr_i ← getitem sr_ct idx;
  hr_i ← getitem hr_ct idx;
  diff ← subtract prec emax sr_i hr_i;
  let mse := mean prec emax (asquare prec emax diff) in
  let psnr := psnr_of hr_range mse in
  lr_i ← getitem lr_ct idx;
  fig ← on_axes 0 idx (λ axis, visualize_ct self axis lr_i lr_title (Some psnr)) fig;
  sr_i ← getitem sr_ct idx;
  fig ← on_axes 1 idx (λ axis, visualize_ct self axis sr_i sr_title None) fig;
  hr_i ← getitem hr_ct idx;
  on_axes 2 idx (λ axis, visualize_ct self axis hr_i hr_title None) fig.

Definition set_gridspec_kw (kw : list (string * Q)) (fig : Figure) : Figure :=
  {| figsize := figsize fig; gridspec_kw := kw; axes := axes fig |}.


(** Two arguments that agree on their first eight images: both are tensors
    that squeeze to more than eight images of one shape, with the same
    images at the indices 0 to 7. *)
Definition agree_on_first_8 (o o' : pyobj) : Prop :=
  ∃ a a' n n' s,
    o = Tensor a ∧ o' = Tensor a' ∧
    shape (squeeze a) = n :: s ∧ shape (squeeze a') = n' :: s ∧
    (8 < n)%nat ∧ (8 < n')%nat ∧
    ∀ idx, (idx < 8)%nat → image_at a idx = image_at a' idx.

(** A plain array among the arguments. *)
Definition is_array (o : pyobj) : bool :=
  match o with
  | Tensor _ => false
  | Array _ => true
  end.

(** The PSNR of column [idx] of two batches (NaN stands for "no value",
    which arises only when the image has no pixel). *)
Definition column_psnr (sr_ct hr_ct : ndarray) (idx : nat) : float :=
  default S754_nan (spec_psnr (data (image_at sr_ct idx)) (data (image_at hr_ct idx))).

(** The grid both triplet methods build from three batches of images:
    the rows show the low-resolution, the super-resolution and the
    high-resolution images, the top row carries the PSNR of its column,
    and the first column carries the row labels. *)
Definition triplet_axes (self : Visualizer) (lr_ct sr_ct hr_ct : ndarray)
    : list (list Axes) :=
  [ (λ idx, shown self (image_at lr_ct idx) (row_label idx "low-res")
                  (Some (column_psnr sr_ct hr_ct idx))) <$> range 8;
    (λ idx, shown self (image_at sr_ct idx) (row_label idx "super-res") None) <$> range 8;
    (λ idx, shown self (image_at hr_ct idx) (row_label idx "high-res") None) <$> range 8 ].

(** A float that is a number and not an infinity. *)
Definition is_finite (x : float) : bool :=
  match x with
  | S754_zero _ | S754_finite _ _ _ => true
  | _ => false
  end.

(** A float whose sign is [s] and that is not a NaN; with [nonzero], one
    that is not a zero either. *)
Definition has_sign (s : bool) (x : float) : Prop :=
  match x with
  | S754_zero s' | S754_infinity s' | S754_finite s' _ _ => s' = s
  | S754_nan => False
  end.

Definition nonzero (x : float) : Prop :=
  match x with
  | S754_zero _ => False
  | _ => True
  end.

(** The x-ticks both curve methods compute for a training series of [n]
    values: [np.linspace(0, n, 11).astype('int')]. *)
Definition x_ticks (n : nat) : list Z :=
  astype_int <$> linspace (F64.of_int 0) (F64.of_int (Z.of_nat n)) 11.

(** Integers at a constant distance [d] from one to the next. *)
Definition spaced_by (d : Z) (l : list Z) : Prop :=
  ∀ i x y, l !! i = Some x → l !! S i = Some y → y - x = d.

Definition evenly_spaced (l : list Z) : Prop := ∃ d, spaced_by d l.

(** A path made of a directory and a file name: [dir ++ file] when [dir]
    is empty or ends with a separator, [dir ++ "/" ++ file] otherwise. *)
Definition in_directory (dir file p : string) : Prop :=
  p = (if bool_decide (dir = "") || ends_with_sep dir then dir +:+ file
       else dir +:+ "/" +:+ file).

(** The float64 of a positive integer below 2^53: the mantissa is the
    integer shifted to 53 binary digits. *)
Definition cint (z : Z) : float :=
  S754_finite false (Z.to_pos (z * 2 ^ (53 - Zdigits2 z))) (Zdigits2 z - 53).

(** The [i]-th sample of [np.linspace(0, n, 11)], for [i] below 10, as
    [linspace] computes it. *)
Definition sample64 (n i : Z) : float :=
  let delta := F64.sub (F64.of_int n) (F64.of_int 0) in
  let step := F64.div delta (F64.of_int 10) in
  F64.add (if F64.eqb step (S754_zero false)
           then F64.mul (F64.div (F64.of_int i) (F64.of_int 10)) delta
           else F64.mul (F64.of_int i) step)
          (F64.of_int 0).


(** The axes [visualize_slice] leaves when it starts from fresh axes and
    the slice is accepted: the image, the name in capitals under it, and
    the scores, when there are any, as the title. *)
Definition shown_slice (self : Visualizer) (ct_slice : ndarray) (ct_name : string)
    (scores : option (float * float)) : Axes :=
  {| spine_top := false; spine_right := false; spine_bottom := false; spine_left := false;
     facecolor := None; aspect := Some "equal";
     images := [{| image_data := ct_slice; cmap := "gray" |}]; lines := [];
     xlim := None; ylim := None; xticks := Some []; yticks := Some [];
     xticklabels := None; yticklabels := None; tick_params := None;
     xlabel := Some {| text := LF +:+ upper ct_name;
                       fontproperties := title_font (_fonts self);
                       color := darkT (_colors self) |};
     ylabel := None;
     title := (λ s, {| text := " MSE " +:+ format_e 3%nat s.1 +:+ LF +:+
                               "PSNR " +:+ format_f 3%nat s.2 +:+ LF;
                       fontproperties := labels_font (_fonts self);
                       color := darkT (_colors self) |}) <$> scores;
     legend := None |}.

(** The grid after the first [k] columns have been drawn. *)
Definition triplet_axes_upto (self : Visualizer) (lr_ct sr_ct hr_ct : ndarray) (k : nat)
    : list (list Axes) :=
  [ ((λ idx, shown self (image_at lr_ct idx) (row_label idx "low-res")
               (Some (column_psnr sr_ct hr_ct idx))) <$> seq 0 k)
      ++ replicate (8 - k) new_axes;
    ((λ idx, shown self (image_at sr_ct idx) (row_label idx "super-res") None) <$> seq 0 k)
      ++ replicate (8 - k) new_axes;
    ((λ idx, shown self (image_at hr_ct idx) (row_label idx "high-res") None) <$> seq 0 k)
      ++ replicate (8 - k) new_axes ].

(** A single image of [h] by [w] pixels: a well-formed tensor that
    squeezes to two axes, as a batch of one image does. *)
Definition is_image (h w : nat) (o : pyobj) : Prop :=
  match o with
  | Tensor a => wf_array a ∧ shape (squeeze a) = [h; w] ∧ (0 < h)%nat ∧ (0 < w)%nat
  | Array _ => False
  end.

(** ** Properties *)

(** *** The error monad and the grid of axes *)

(** One step of a computation whose first action has returned. *)
Ltac py_step :=
  match goal with
  | |- context [mbind ?f (Return ?a)] => change (mbind f (Return a)) with (f a); cbv beta
  end.

Lemma for_each_fmap {A S : Type} (g : S → S) (body : A → S → py S) xs :
  (∀ x s, body x (g s) = g <$> body x s) →
  ∀ s, for_each xs body (g s) = g <$> for_each xs body s.
Proof.
  intros Hbody. induction xs as [|x xs IH]; intros s; simpl; [done|].
  rewrite Hbody. destruct (body x s) as [s'|e]; simpl; [apply IH|done].
Qed.

Lemma for_each_ext {A S : Type} (body body' : A → S → py S) xs :
  (∀ x s, x ∈ xs → body x s = body' x s) →
  ∀ s, for_each xs body s = for_each xs body' s.
Proof.
  induction xs as [|x xs IH]; intros Hbody s; simpl; [done|].
  rewrite Hbody by left.
  destruct (body' x s) as [s'|e]; simpl; [|done].
  apply IH. intros y t Hy. apply Hbody. by right.
Qed.

Lemma on_axes_gridspec_kw kw r c f fig :
  on_axes r c f (set_gridspec_kw kw fig) = set_gridspec_kw kw <$> on_axes r c f fig.
Proof.
  unfold on_axes; simpl.
  destruct (axes fig !! r) as [row|]; [|done].
  destruct (row !! c) as [ax|]; [|done].
  destruct (f ax); done.
Qed.

Lemma to_numpy_tensor a : to_numpy (Tensor a) = Return (squeeze a).
Proof. done. Qed.

Lemma to_numpy_array a : to_numpy (Array a) = Raise AttributeError.
Proof. done. Qed.

(** Both methods are the conversion, the loop over [triplet_column] and
    the way the figure leaves the method. *)
Lemma visualize_generated_ct_unfold self lr_ct sr_ct hr_ct epoch :
  visualize_generated_ct self lr_ct sr_ct hr_ct epoch =
  (lr ← to_numpy lr_ct; sr ← to_numpy sr_ct; hr ← to_numpy hr_ct;
   fig ← for_each (range 8) (triplet_column self lr sr hr)
           (subplots 3 8 (20, 6) [("hspace", 0.05); ("wspace", 0.25)]%Q);
   Return {| path := path_join (_plots_dir self)
                       ("visualization_epoch_" +:+ format_d (epoch + 1) +:+ ".svg");
             saved := fig |}).
Proof. reflexivity. Qed.

Lemma get_generated_ct_fig_unfold self lr_ct sr_ct hr_ct :
  get_generated_ct_fig self lr_ct sr_ct hr_ct =
  (lr ← to_numpy lr_ct; sr ← to_numpy sr_ct; hr ← to_numpy hr_ct;
   fig ← for_each (range 8) (triplet_column self lr sr hr)
           (subplots 3 8 (20, 6) [("hspace", 0.05); ("wspace", 0.15)]%Q);
   Return fig).
Proof. reflexivity. Qed.

Lemma triplet_column_gridspec_kw kw self lr sr hr idx fig :
  triplet_column self lr sr hr idx (set_gridspec_kw kw fig) =
  set_gridspec_kw kw <$> triplet_column self lr sr hr idx fig.
Proof.
  unfold triplet_column.
  destruct (bool_decide (0 < idx)%nat); simpl;
    repeat match goal with
    | |- context [on_axes ?r ?c ?f (set_gridspec_kw kw ?g)] =>
        rewrite (on_axes_gridspec_kw kw r c f g);
        destruct (on_axes r c f g); simpl; try done
    | |- context [mbind _ ?m] =>
        lazymatch m with
        | context [set_gridspec_kw] => fail
        | _ => destruct m; simpl; try done
        end
    end.
Qed.

Lemma getitem_image_at a idx n s :
  shape (squeeze a) = n :: s → (idx < n)%nat →
  getitem (squeeze a) idx = Return (image_at a idx).
Proof.
  intros Hs Hidx. unfold getitem, image_at. rewrite Hs. simpl.
  by rewrite bool_decide_eq_true_2.
Qed.

Lemma triplet_column_agree self lr sr hr lr' sr' hr' idx fig :
  getitem lr idx = getitem lr' idx →
  getitem sr idx = getitem sr' idx →
  getitem hr idx = getitem hr' idx →
  triplet_column self lr sr hr idx fig = triplet_column self lr' sr' hr' idx fig.
Proof.
  intros Hlr Hsr Hhr. unfold triplet_column. by rewrite Hlr, Hsr, Hhr.
Qed.

Lemma agree_getitem o o' idx :
  agree_on_first_8 o o' → (idx < 8)%nat →
  ∃ a a', o = Tensor a ∧ o' = Tensor a' ∧
          getitem (squeeze a) idx = getitem (squeeze a') idx.
Proof.
  intros (a & a' & n & n' & s & -> & -> & Hs & Hs' & Hn & Hn' & Himg) Hidx.
  exists a, a'. split_and!; [done..|].
  rewrite (getitem_image_at a idx n s), (getitem_image_at a' idx n' s) by (done || lia).
  by rewrite Himg.
Qed.

(** Case analysis on the steps of a computation that has returned. *)
Ltac py_returned H :=
  repeat match type of H with
         | mbind ?f ?m = Return _ =>
             let a := fresh "a" in
             destruct m as [a|];
             [change (mbind f (Return a)) with (f a) in H; cbv beta in H
             |discriminate H]
         end.

Lemma path_join_in_directory dir file :
  starts_with_sep file = false → in_directory dir file (path_join dir file).
Proof. intros Hfile. unfold in_directory, path_join. by rewrite Hfile. Qed.

(** *** IEEE arithmetic: signs, zeros and infinities

    The facts about the rounding of [SpecFloat] that the metric relies on:
    rounding a positive mantissa gives a number of the requested sign, and
    it gives no zero when the exponent is at least [emin]. *)

Lemma shr_1_div2 mrs : 0 ≤ shr_m mrs → shr_m (shr_1 mrs) = shr_m mrs / 2.
Proof.
  destruct mrs as [[|[m|m|]|m] r s]; intros Hm; try (simpl in Hm; lia);
    cbn [shr_1 shr_m].
  - done.
  - change (Z.pos m~1) with (2 * Z.pos m + 1). apply (Z.div_unique _ 2 _ 1); lia.
  - change (Z.pos m~0) with (2 * Z.pos m). apply (Z.div_unique _ 2 _ 0); lia.
  - done.
Qed.

Lemma iter_invariant {A : Type} (P : A → Prop) (f : A → A) :
  (∀ x, P x → P (f x)) → ∀ p x, P x → P (SpecFloat.iter_pos f p x).
Proof.
  intros Hf. induction p as [p IH|p IH|]; intros x Hx; simpl; auto.
Qed.

Lemma shr_1_nonneg mrs : 0 ≤ shr_m mrs → 0 ≤ shr_m (shr_1 mrs).
Proof. intros Hm. rewrite shr_1_div2 by done. by apply Z.div_pos. Qed.

Lemma shr_m_iter p mrs :
  0 ≤ shr_m mrs → shr_m (SpecFloat.iter_pos shr_1 p mrs) = shr_m mrs / 2 ^ Z.pos p.
Proof.
  revert mrs. induction p as [p IH|p IH|]; intros mrs Hm; simpl SpecFloat.iter_pos.
  - assert (0 ≤ shr_m (shr_1 mrs)) as H1 by by apply shr_1_nonneg.
    assert (0 ≤ shr_m (SpecFloat.iter_pos shr_1 p (shr_1 mrs))) as H2
      by (apply (iter_invariant (λ x, 0 ≤ shr_m x)); [apply shr_1_nonneg|done]).
    rewrite IH, IH, shr_1_div2 by done.
    rewrite !Z.div_div by lia. f_equal.
    replace (Z.pos p~1) with (1 + Z.pos p + Z.pos p) by lia.
    rewrite !Z.pow_add_r by lia. lia.
  - assert (0 ≤ shr_m (SpecFloat.iter_pos shr_1 p mrs)) as H2
      by (apply (iter_invariant (λ x, 0 ≤ shr_m x)); [apply shr_1_nonneg|done]).
    rewrite IH, IH by done.
    rewrite !Z.div_div by lia. f_equal.
    replace (Z.pos p~0) with (Z.pos p + Z.pos p) by lia.
    rewrite !Z.pow_add_r by lia. lia.
  - rewrite shr_1_div2 by done. done.
Qed.

Lemma digits2_pos_le m : 2 ^ (Z.pos (digits2_pos m) - 1) ≤ Z.pos m.
Proof.
  induction m as [m IH|m IH|]; simpl digits2_pos.
  - rewrite Pos2Z.inj_succ. replace (Z.succ (Z.pos (digits2_pos m)) - 1)
      with (Z.succ (Z.pos (digits2_pos m) - 1)) by lia.
    rewrite Z.pow_succ_r by lia. lia.
  - rewrite Pos2Z.inj_succ. replace (Z.succ (Z.pos (digits2_pos m)) - 1)
      with (Z.succ (Z.pos (digits2_pos m) - 1)) by lia.
    rewrite Z.pow_succ_r by lia. lia.
  - done.
Qed.

Lemma digits2_pos_lt m : Z.pos m < 2 ^ Z.pos (digits2_pos m).
Proof.
  induction m as [m IH|m IH|]; simpl digits2_pos.
  - rewrite Pos2Z.inj_succ, Z.pow_succ_r by lia. lia.
  - rewrite Pos2Z.inj_succ, Z.pow_succ_r by lia. lia.
  - done.
Qed.

Lemma shr_record_of_loc_m m l : shr_m (shr_record_of_loc m l) = m.
Proof. by destruct l as [|[]]. Qed.

Lemma shr_fexp_spec m e l :
  0 ≤ m →
  ∃ mrs, let n := Z.max 0 (fexp prec emax (Zdigits2 m + e) - e) in
         shr_fexp prec emax m e l = (mrs, e + n) ∧ shr_m mrs = m / 2 ^ n.
Proof.
  intros Hm. unfold shr_fexp, shr.
  destruct (fexp prec emax (Zdigits2 m + e) - e) as [|n|n] eqn:Hn.
  - eexists. split; [by rewrite Z.add_0_r|].
    by rewrite shr_record_of_loc_m, Z.div_1_r.
  - eexists. split; [by rewrite Z.max_r by lia|].
    rewrite shr_m_iter, shr_record_of_loc_m by by rewrite shr_record_of_loc_m.
    by rewrite Z.max_r by lia.
  - eexists. split; [by rewrite Z.max_l, Z.add_0_r by lia|].
    by rewrite shr_record_of_loc_m, Z.max_l, Z.div_1_r by lia.
Qed.

Lemma Zdigits2_le m : 0 < m → 2 ^ (Zdigits2 m - 1) ≤ m.
Proof. destruct m; [lia| |lia]. intros _. apply digits2_pos_le. Qed.

Lemma round_nearest_even_bounds m l :
  m ≤ round_nearest_even m l ≤ m + 1.
Proof. destruct l as [|[]]; simpl; try lia. destruct (Z.even m); lia. Qed.

Lemma shr_fexp_nonneg m e l mrs e' :
  0 ≤ m → shr_fexp prec emax m e l = (mrs, e') → 0 ≤ shr_m mrs.
Proof.
  intros Hm Heq. destruct (shr_fexp_spec m e l Hm) as (mrs0 & Hs & Hv).
  rewrite Heq in Hs. injection Hs as <- _. rewrite Hv.
  apply Z.div_pos; [done|]. apply Z.pow_pos_nonneg; lia.
Qed.

Lemma shr_fexp_pos m e l mrs e' :
  0 < prec → emin prec emax ≤ e → 0 < m →
  shr_fexp prec emax m e l = (mrs, e') → 0 < shr_m mrs ∧ emin prec emax ≤ e'.
Proof.
  intros Hprec He Hm Heq.
  destruct (shr_fexp_spec m e l) as (mrs0 & Hs & Hv); [lia|].
  rewrite Heq in Hs. injection Hs as <- ->. rewrite Hv.
  pose proof (Zdigits2_le m Hm) as Hd.
  assert (0 < Zdigits2 m) as Hdpos by (destruct m; simpl; lia).
  unfold fexp in *.
  set (n := Z.max 0 (Z.max (Zdigits2 m + e - prec) (emin prec emax) - e)) in *.
  assert (0 ≤ n ≤ Zdigits2 m - 1) as Hn by lia.
  split; [|lia].
  apply Z.div_str_pos. split; [apply Z.pow_pos_nonneg; lia|].
  etrans; [|exact Hd]. apply Z.pow_le_mono_r; lia.
Qed.

Lemma binary_round_aux_sign s m e l :
  0 ≤ m → has_sign s (binary_round_aux prec emax s m e l).
Proof.
  intros Hm. unfold binary_round_aux.
  destruct (shr_fexp prec emax m e l) as [mrs1 e1] eqn:H1.
  pose proof (shr_fexp_nonneg _ _ _ _ _ Hm H1) as Hm1.
  pose proof (round_nearest_even_bounds (shr_m mrs1) (loc_of_shr_record mrs1)) as Hr.
  destruct (shr_fexp prec emax _ e1 loc_Exact) as [mrs2 e2] eqn:H2.
  apply shr_fexp_nonneg in H2; [|lia].
  destruct (shr_m mrs2); [done| |lia].
  by destruct (e2 <=? emax - prec).
Qed.

Lemma binary_round_aux_nonzero s m e l :
  0 < prec → emin prec emax ≤ e → 0 < m →
  nonzero (binary_round_aux prec emax s m e l).
Proof.
  intros Hprec He Hm. unfold binary_round_aux.
  destruct (shr_fexp prec emax m e l) as [mrs1 e1] eqn:H1.
  apply shr_fexp_pos in H1 as [Hm1 He1]; [|done..].
  pose proof (round_nearest_even_bounds (shr_m mrs1) (loc_of_shr_record mrs1)) as Hr.
  destruct (shr_fexp prec emax _ e1 loc_Exact) as [mrs2 e2] eqn:H2.
  apply shr_fexp_pos in H2 as [Hm2 He2]; [|done || lia..].
  destruct (shr_m mrs2); [lia| |lia].
  by destruct (e2 <=? emax - prec).
Qed.

Lemma binary_round_sign s m e : has_sign s (binary_round prec emax s m e).
Proof.
  unfold binary_round. destruct (shl_align _ _ _) as [mz ez].
  by apply binary_round_aux_sign.
Qed.

Lemma binary_normalize_sign m e : ∃ s, has_sign s (binary_normalize prec emax m e false).
Proof.
  destruct m; simpl; [by exists false|exists false|exists true]; apply binary_round_sign.
Qed.

Lemma of_int_pos p :
  0 < prec → emin prec emax ≤ 0 →
  has_sign false (of_int prec emax (Z.pos p)) ∧ nonzero (of_int prec emax (Z.pos p)).
Proof.
  intros Hprec Hemin. unfold of_int, binary_normalize, binary_round, shl_align.
  destruct (fexp prec emax (Z.pos (digits2_pos p) + 0) - 0) as [|n|n] eqn:Hn;
    (split; [by apply binary_round_aux_sign|apply binary_round_aux_nonzero; try done]).
  unfold fexp in *. lia.
Qed.

Lemma SFsub_diag x : is_finite x = true → SFsub prec emax x x = S754_zero false.
Proof.
  destruct x as [[]|[]| |s m e]; try done. intros _. simpl.
  by rewrite Z.sub_diag.
Qed.

Lemma SFsub_sign x y :
  is_finite x = true → is_finite y = true → ∃ s, has_sign s (SFsub prec emax x y).
Proof.
  destruct x as [sx|sx| |sx mx ex], y as [sy|sy| |sy my ey]; try done; intros _ _.
  - destruct sx, sy; by eexists.
  - by eexists.
  - by eexists.
  - apply binary_normalize_sign.
Qed.

Lemma square_sign s x : has_sign s x → has_sign false (square prec emax x).
Proof.
  destruct x as [sx|sx| |sx mx ex]; try done; intros _; unfold square; simpl.
  - by destruct sx.
  - by destruct sx.
  - replace (xorb sx sx) with false by by destruct sx.
    by apply binary_round_aux_sign.
Qed.

Lemma squared_error_diag x : is_finite x = true → squared_error x x = S754_zero false.
Proof. intros Hx. unfold squared_error. by rewrite SFsub_diag. Qed.

Lemma zip_with_squared_error_diag l :
  Forall (λ x, is_finite x = true) l →
  zip_with squared_error l l = replicate (length l) (S754_zero false).
Proof.
  induction 1 as [|x l Hx _ IH]; [done|]. simpl. by rewrite squared_error_diag, IH.
Qed.

Lemma fsum_zeros n : fsum prec emax (replicate n (S754_zero false)) = S754_zero false.
Proof.
  destruct n as [|n]; [done|]. unfold fsum. simpl.
  induction n as [|n IH]; [done|]. by simpl.
Qed.

Lemma fmean_zeros n :
  0 < prec → emin prec emax ≤ 0 → (0 < n)%nat →
  fmean prec emax (replicate n (S754_zero false)) = S754_zero false.
Proof.
  intros Hprec Hemin Hn. unfold fmean. rewrite fsum_zeros, length_replicate.
  destruct n as [|n]; [lia|].
  destruct (of_int_pos (Pos.of_succ_nat n) Hprec Hemin) as [Hs Hz].
  change (Z.of_nat (S n)) with (Z.pos (Pos.of_succ_nat n)).
  destruct (of_int prec emax (Z.pos (Pos.of_succ_nat n))) as [|[]| |[]]; done.
Qed.

Lemma SFdiv_zero x :
  has_sign false x → nonzero x →
  SFdiv prec emax x (S754_zero false) = S754_infinity false.
Proof. destruct x as [|[]| |[]]; done. Qed.

Lemma SFmul_10_inf :
  0 < prec → emin prec emax ≤ 0 →
  SFmul prec emax (of_int prec emax 10) (S754_infinity false) = S754_infinity false.
Proof.
  intros Hprec Hemin. destruct (of_int_pos 10 Hprec Hemin) as [Hs Hz].
  destruct (of_int prec emax 10) as [|[]| |[]]; done.
Qed.

Lemma maximum_cases acc x : maximum acc x = acc ∨ maximum acc x = x.
Proof. unfold maximum. destruct (_ || _); auto. Qed.

Lemma minimum_cases acc x : minimum acc x = acc ∨ minimum acc x = x.
Proof. unfold minimum. destruct (_ || _); auto. Qed.

Lemma reduce_elem_of f l m :
  (∀ acc x, f acc x = acc ∨ f acc x = x) → reduce f l = Some m → m ∈ l.
Proof.
  intros Hf. destruct l as [|x xs]; [done|]. simpl. intros [= <-].
  revert x. induction xs as [|y xs IH]; intros x; simpl; [by left|].
  specialize (IH (f x y)). destruct (Hf x y) as [Heq|Heq]; rewrite Heq in *.
  - apply elem_of_cons in IH as [->|?]; [by left|]. by right; right.
  - by right.
Qed.

(** *** Arrays: shapes, images of a batch, subtraction at equal shapes *)

Lemma size_of_squeeze s : size_of (filter (λ d, d ≠ 1%nat) s) = size_of s.
Proof.
  induction s as [|d s IH]; [done|].
  rewrite filter_cons. case_decide as Hd; simpl.
  - by rewrite IH.
  - assert (d = 1%nat) as -> by (destruct (decide (d = 1%nat)); [done|by destruct Hd]).
    rewrite IH. change (size_of (1%nat :: s)) with (1 * size_of s)%nat. lia.
Qed.

Lemma wf_squeeze a : wf_array a → wf_array (squeeze a).
Proof. unfold wf_array. simpl. by rewrite size_of_squeeze. Qed.

Lemma concat_chunks {A : Type} (n k : nat) (d : list A) :
  length d = (k * n)%nat →
  concat ((λ i, take n (drop (i * n) d)) <$> seq 0 k) = d.
Proof.
  revert d. induction k as [|k IH]; intros d Hd.
  - by destruct d.
  - rewrite <-cons_seq, fmap_cons, <-fmap_S_seq, <-list_fmap_compose. simpl.
    rewrite drop_0.
    rewrite (list_fmap_ext _ (λ i, take n (drop (i * n) (drop n d))) (seq 0 k)).
    + rewrite IH; [apply take_drop|]. rewrite length_drop. lia.
    + intros i x _. simpl. by rewrite drop_drop.
Qed.

Lemma broadcast_data_same s d :
  length d = size_of s → broadcast_data s s d = d.
Proof.
  revert d. induction s as [|n s IH]; intros d Hd; [done|].
  change (size_of (n :: s)) with (n * size_of s)%nat in Hd.
  simpl. rewrite bool_decide_eq_true_2 by done.
  rewrite (list_fmap_ext _ (λ i, take (size_of s) (drop (i * size_of s) d)) (seq 0 n)).
  - by apply concat_chunks.
  - intros i x [-> Hx]%lookup_seq. apply IH.
    rewrite length_take, length_drop. nia.
Qed.

Lemma broadcast_to_same a : wf_array a → broadcast_to a (shape a) = data a.
Proof.
  intros Hwf. unfold broadcast_to. rewrite Nat.sub_diag. simpl.
  by apply broadcast_data_same.
Qed.

Lemma broadcast_rev_same s : broadcast_rev s s = Some s.
Proof.
  induction s as [|d s IH]; [done|]. simpl. rewrite IH. simpl.
  by rewrite bool_decide_eq_true_2.
Qed.

Lemma broadcast_shapes_same s : broadcast_shapes s s = Some s.
Proof.
  unfold broadcast_shapes. rewrite broadcast_rev_same. simpl. by rewrite reverse_involutive.
Qed.

Lemma subtract_same_shape a b :
  wf_array a → wf_array b → shape a = shape b →
  subtract prec emax a b =
  Return {| shape := shape a; data := zip_with (SFsub prec emax) (data a) (data b) |}.
Proof.
  intros Ha Hb Hs. unfold subtract. rewrite <-Hs, broadcast_shapes_same.
  rewrite broadcast_to_same by done.
  rewrite Hs, broadcast_to_same by done. by rewrite <-Hs.
Qed.

Lemma mean_asquare_zip_with s d d' :
  mean prec emax (asquare prec emax {| shape := s; data := zip_with (SFsub prec emax) d d' |}) =
  fmean prec emax (zip_with squared_error d d').
Proof.
  unfold mean, asquare, squared_error. simpl. f_equal.
  revert d'. induction d as [|x d IH]; intros [|y d']; simpl; [done..|].
  by rewrite IH.
Qed.

(** The images of a batch. *)
Lemma image_at_shape a idx n s :
  shape (squeeze a) = n :: s → shape (image_at a idx) = s.
Proof. intros Hs. unfold image_at. by rewrite Hs. Qed.

Lemma image_at_length a idx n s :
  wf_array a → shape (squeeze a) = n :: s → (idx < n)%nat →
  length (data (image_at a idx)) = size_of s.
Proof.
  intros Hwf%wf_squeeze Hs Hidx. unfold image_at. rewrite Hs. simpl.
  unfold wf_array in Hwf. rewrite Hs in Hwf. simpl in Hwf.
  rewrite length_take, length_drop, Hwf. nia.
Qed.

Lemma image_at_wf a idx n s :
  wf_array a → shape (squeeze a) = n :: s → (idx < n)%nat →
  wf_array (image_at a idx).
Proof.
  intros Hwf Hs Hidx. unfold wf_array.
  by rewrite (image_at_length a idx n s), (image_at_shape a idx n s).
Qed.

Lemma reduce_is_Some f l : (0 < length l)%nat → is_Some (reduce f l).
Proof. destruct l; simpl; [lia|eauto]. Qed.

Lemma amax_reduce a m : reduce maximum (data a) = Some m → amax a = Return m.
Proof. unfold amax. by intros ->. Qed.

Lemma amin_reduce a m : reduce minimum (data a) = Some m → amin a = Return m.
Proof. unfold amin. by intros ->. Qed.

(** *** One column, then the whole grid *)

Lemma visualize_ct_shown self ct_image title psnr :
  image_shape_ok (shape ct_image) = true →
  visualize_ct self new_axes ct_image title psnr = Return (shown self ct_image title psnr).
Proof.
  intros Hok. unfold visualize_ct, imshow. simpl. rewrite Hok. simpl.
  by destruct title, psnr.
Qed.

Lemma on_axes_rows r0 r1 r2 sz kw r c f row ax ax' :
  [r0; r1; r2] !! r = Some row → row !! c = Some ax → f ax = Return ax' →
  on_axes r c f {| figsize := sz; gridspec_kw := kw; axes := [r0; r1; r2] |} =
  Return {| figsize := sz; gridspec_kw := kw;
            axes := <[r := <[c := ax']> row]> [r0; r1; r2] |}.
Proof. intros Hr Hc Hf. unfold on_axes. simpl axes. by rewrite Hr, Hc, Hf. Qed.

Lemma spec_psnr_psnr_of sr_px hr_px hi lo :
  reduce maximum hr_px = Some hi → reduce minimum hr_px = Some lo →
  spec_psnr sr_px hr_px =
  Some (psnr_of (SFsub prec emax hi lo) (fmean prec emax (zip_with squared_error sr_px hr_px))).
Proof. intros Hhi Hlo. unfold spec_psnr. by rewrite Hhi, Hlo. Qed.

Lemma triplet_column_ok self lr sr hr idx sz kw r0 r1 r2 lr_i sr_i hr_i p :
  getitem lr idx = Return lr_i →
  getitem sr idx = Return sr_i →
  getitem hr idx = Return hr_i →
  spec_psnr (data sr_i) (data hr_i) = Some p →
  wf_array sr_i → wf_array hr_i → shape sr_i = shape hr_i →
  image_shape_ok (shape lr_i) = true →
  image_shape_ok (shape sr_i) = true →
  r0 !! idx = Some new_axes → r1 !! idx = Some new_axes → r2 !! idx = Some new_axes →
  triplet_column self lr sr hr idx {| figsize := sz; gridspec_kw := kw; axes := [r0; r1; r2] |} =
  Return {| figsize := sz; gridspec_kw := kw;
            axes := [ <[idx := shown self lr_i (row_label idx "low-res") (Some p)]> r0;
                      <[idx := shown self sr_i (row_label idx "super-res") None]> r1;
                      <[idx := shown self hr_i (row_label idx "high-res") None]> r2 ] |}.
Proof.
  intros Hlr Hsr Hhr Hp Hwfs Hwfh Hshape Hoklr Hoksr H0 H1 H2.
  assert (image_shape_ok (shape hr_i) = true) as Hokhr by by rewrite <-Hshape.
  unfold spec_psnr in Hp.
  destruct (reduce maximum (data hr_i)) as [hi|] eqn:Hhi; [|done].
  destruct (reduce minimum (data hr_i)) as [lo|] eqn:Hlo; [|done].
  simpl in Hp. injection Hp as <-.
  unfold triplet_column, row_label.
  rewrite Hlr, Hsr, Hhr.
  destruct (bool_decide (0 < idx)%nat); repeat py_step;
    rewrite (amax_reduce _ _ Hhi), (amin_reduce _ _ Hlo); repeat py_step;
    rewrite subtract_same_shape by done; repeat py_step;
    rewrite mean_asquare_zip_with;
    (erewrite (on_axes_rows r0 r1 r2 sz kw 0 idx);
       [|reflexivity|exact H0|cbv beta; by apply visualize_ct_shown]);
    repeat py_step; simpl insert;
    (erewrite (on_axes_rows _ r1 r2 sz kw 1 idx);
       [|reflexivity|exact H1|cbv beta; by apply visualize_ct_shown]);
    repeat py_step; simpl insert;
    (erewrite (on_axes_rows _ _ r2 sz kw 2 idx);
       [|reflexivity|exact H2|cbv beta; by apply visualize_ct_shown]);
    reflexivity.
Qed.

Lemma for_each_cons {A S : Type} (x : A) xs (body : A → S → py S) s :
  for_each (x :: xs) body s = body x s ≫= for_each xs body.
Proof. done. Qed.

Lemma batch_image n h w a idx :
  is_batch n h w (Tensor a) → (idx < n)%nat →
  getitem (squeeze a) idx = Return (image_at a idx) ∧
  wf_array (image_at a idx) ∧
  shape (image_at a idx) = [h; w] ∧
  (0 < length (data (image_at a idx)))%nat.
Proof.
  intros (Hwf & Hs & Hh & Hw) Hidx. split_and!.
  - by apply (getitem_image_at a idx n [h; w]).
  - by apply (image_at_wf a idx n [h; w]).
  - by apply (image_at_shape a idx n [h; w]).
  - rewrite (image_at_length a idx n [h; w]) by done. simpl. nia.
Qed.

Lemma batch_column_psnr n h w sr hr idx :
  is_batch n h w (Tensor hr) → (idx < n)%nat →
  spec_psnr (data (image_at sr idx)) (data (image_at hr idx)) = Some (column_psnr sr hr idx).
Proof.
  intros Hhr Hidx. destruct (batch_image _ _ _ _ _ Hhr Hidx) as (_ & _ & _ & Hlen).
  destruct (reduce_is_Some maximum _ Hlen) as [hi Hhi].
  destruct (reduce_is_Some minimum _ Hlen) as [lo Hlo].
  unfold column_psnr. by rewrite (spec_psnr_psnr_of _ _ hi lo).
Qed.

Lemma triplet_grid_ok self lr sr hr h w h' w' sz kw :
  is_batch 8 h' w' (Tensor lr) → is_batch 8 h w (Tensor sr) → is_batch 8 h w (Tensor hr) →
  for_each (range 8) (triplet_column self (squeeze lr) (squeeze sr) (squeeze hr))
           (subplots 3 8 sz kw) =
  Return {| figsize := sz; gridspec_kw := kw; axes := triplet_axes self lr sr hr |}.
Proof.
  intros Hlr Hsr Hhr.
  assert (∀ idx r0 r1 r2, (idx < 8)%nat →
            r0 !! idx = Some new_axes → r1 !! idx = Some new_axes →
            r2 !! idx = Some new_axes →
            triplet_column self (squeeze lr) (squeeze sr) (squeeze hr) idx
              {| figsize := sz; gridspec_kw := kw; axes := [r0; r1; r2] |} =
            Return {| figsize := sz; gridspec_kw := kw;
                      axes := [ <[idx := shown self (image_at lr idx) (row_label idx "low-res")
                                           (Some (column_psnr sr hr idx))]> r0;
                                <[idx := shown self (image_at sr idx)
                                           (row_label idx "super-res") None]> r1;
                                <[idx := shown self (image_at hr idx)
                                           (row_label idx "high-res") None]> r2 ] |})
    as Hcol.
  { intros idx r0 r1 r2 Hidx H0 H1 H2.
    destruct (batch_image _ _ _ _ _ Hlr Hidx) as (Hget_lr & _ & Hs_lr & _).
    destruct (batch_image _ _ _ _ _ Hsr Hidx) as (Hget_sr & Hwf_sr & Hs_sr & _).
    destruct (batch_image _ _ _ _ _ Hhr Hidx) as (Hget_hr & Hwf_hr & Hs_hr & _).
    apply triplet_column_ok; try done.
    - by apply (batch_column_psnr 8 h w).
    - by rewrite Hs_sr, Hs_hr.
    - by rewrite Hs_lr.
    - by rewrite Hs_sr. }
  change (range 8) with [0; 1; 2; 3; 4; 5; 6; 7]%nat.
  change (subplots 3 8 sz kw)
    with {| figsize := sz; gridspec_kw := kw;
            axes := [replicate 8 new_axes; replicate 8 new_axes; replicate 8 new_axes] |}.
  do 8 (rewrite for_each_cons, Hcol by (lia || reflexivity); py_step).
  reflexivity.
Qed.

(** *** The triplet methods on batches of eight images *)

Lemma visualize_generated_ct_ok self lr_ct sr_ct hr_ct epoch h w h' w' :
  is_batch 8 h' w' lr_ct → is_batch 8 h w sr_ct → is_batch 8 h w hr_ct →
  visualize_generated_ct self lr_ct sr_ct hr_ct epoch =
  Return {| path := path_join (_plots_dir self)
                      ("visualization_epoch_" +:+ format_d (epoch + 1) +:+ ".svg");
            saved := {| figsize := (20, 6);
                        gridspec_kw := [("hspace", 0.05); ("wspace", 0.25)]%Q;
                        axes := triplet_axes self (array_of lr_ct) (array_of sr_ct)
                                             (array_of hr_ct) |} |}.
Proof.
  intros Hlr Hsr Hhr. rewrite visualize_generated_ct_unfold.
  destruct lr_ct as [lr|], sr_ct as [sr|], hr_ct as [hr|]; try done.
  rewrite !to_numpy_tensor. repeat py_step.
  by rewrite (triplet_grid_ok self lr sr hr h w h' w').
Qed.

Lemma get_generated_ct_fig_ok self lr_ct sr_ct hr_ct h w h' w' :
  is_batch 8 h' w' lr_ct → is_batch 8 h w sr_ct → is_batch 8 h w hr_ct →
  get_generated_ct_fig self lr_ct sr_ct hr_ct =
  Return {| figsize := (20, 6);
            gridspec_kw := [("hspace", 0.05); ("wspace", 0.15)]%Q;
            axes := triplet_axes self (array_of lr_ct) (array_of sr_ct) (array_of hr_ct) |}.
Proof.
  intros Hlr Hsr Hhr. rewrite get_generated_ct_fig_unfold.
  destruct lr_ct as [lr|], sr_ct as [sr|], hr_ct as [hr|]; try done.
  rewrite !to_numpy_tensor. repeat py_step.
  by rewrite (triplet_grid_ok self lr sr hr h w h' w').
Qed.

Lemma triplet_axes_lookup self lr sr hr sz kw idx :
  (idx < 8)%nat →
  let fig := {| figsize := sz; gridspec_kw := kw; axes := triplet_axes self lr sr hr |} in
  get_axes fig 0 idx = Some (shown self (image_at lr idx) (row_label idx "low-res")
                                   (Some (column_psnr sr hr idx))) ∧
  get_axes fig 1 idx = Some (shown self (image_at sr idx) (row_label idx "super-res") None) ∧
  get_axes fig 2 idx = Some (shown self (image_at hr idx) (row_label idx "high-res") None).
Proof.
  intros Hidx.
  do 8 (destruct idx as [|idx]; [by split_and!|]). lia.
Qed.

Lemma triplet_axes_size self lr sr hr :
  length (triplet_axes self lr sr hr) = 3%nat ∧
  Forall (λ row, length row = 8%nat) (triplet_axes self lr sr hr).
Proof. split; [done|]. unfold triplet_axes. by repeat constructor. Qed.

(** The PSNR of a column whose two images are the same finite pixels. *)
Lemma spec_psnr_diag px hi lo :
  0 < prec → emin prec emax ≤ 0 →
  log10 (S754_infinity false) = S754_infinity false →
  Forall (λ x, is_finite x = true) px →
  reduce maximum px = Some hi → reduce minimum px = Some lo →
  nonzero (square prec emax (SFsub prec emax hi lo)) →
  spec_psnr px px = Some (S754_infinity false).
Proof.
  intros Hprec Hemin Hlog Hfin Hhi Hlo Hnz.
  assert (0 < length px)%nat as Hlen by (destruct px; [done|simpl; lia]).
  assert (is_finite hi = true) as Hfhi.
  { eapply (proj1 (Forall_forall _ _) Hfin), reduce_elem_of, Hhi. apply maximum_cases. }
  assert (is_finite lo = true) as Hflo.
  { eapply (proj1 (Forall_forall _ _) Hfin), reduce_elem_of, Hlo. apply minimum_cases. }
  rewrite (spec_psnr_psnr_of _ _ hi lo) by done. f_equal.
  rewrite zip_with_squared_error_diag, fmean_zeros by done.
  unfold psnr_of.
  destruct (SFsub_sign hi lo Hfhi Hflo) as [s Hs].
  rewrite SFdiv_zero, Hlog; [by apply SFmul_10_inf| |done].
  by apply (square_sign s).
Qed.

(** *** Rounding: exact shifts, and no overflow

    A mantissa that ends in enough zeros is shifted to the precision of the
    format without a rounding error, and a value whose exponent fits the
    format rounds to a finite number. *)

(** The number of binary digits, through [Z.log2]. *)
Lemma Zdigits2_log2 z : 0 < z → Zdigits2 z = Z.log2 z + 1.
Proof.
  destruct z as [|p|p]; [lia| |lia]. intros _. simpl Zdigits2.
  pose proof (digits2_pos_le p). pose proof (digits2_pos_lt p).
  rewrite (Z.log2_unique (Z.pos p) (Z.pos (digits2_pos p) - 1)); [lia|lia|].
  split; [done|]. by replace (Z.succ (Z.pos (digits2_pos p) - 1)) with (Z.pos (digits2_pos p)) by lia.
Qed.

Lemma Zdigits2_mul_pow2 z j : 0 < z → 0 ≤ j → Zdigits2 (z * 2 ^ j) = Zdigits2 z + j.
Proof.
  intros Hz Hj. rewrite !Zdigits2_log2; [|done|].
  - rewrite Z.log2_mul_pow2 by lia. lia.
  - apply Z.mul_pos_pos; [done|]. apply Z.pow_pos_nonneg; lia.
Qed.

Lemma Zdigits2_le_iff z d : 0 < z → 0 ≤ d → Zdigits2 z ≤ d ↔ z < 2 ^ d.
Proof.
  intros Hz Hd. rewrite Zdigits2_log2 by done.
  rewrite (Z.log2_lt_pow2 z d Hz). lia.
Qed.

Lemma Zdigits2_pos z : 0 < z → 0 < Zdigits2 z.
Proof. intros Hz. rewrite Zdigits2_log2 by done. pose proof (Z.log2_nonneg z). lia. Qed.

Lemma Zdigits2_mul a b :
  0 < a → 0 < b →
  Zdigits2 a + Zdigits2 b - 1 ≤ Zdigits2 (a * b) ≤ Zdigits2 a + Zdigits2 b.
Proof.
  intros Ha Hb. rewrite !Zdigits2_log2 by lia.
  pose proof (Z.log2_mul_below a b Ha Hb).
  pose proof (Z.log2_mul_above a b). lia.
Qed.

(** Shifting out zeros is exact. *)
Lemma shr_1_double m :
  0 ≤ m → shr_1 (Build_shr_record (2 * m) false false) = Build_shr_record m false false.
Proof. destruct m as [|p|p]; [done|done|lia]. Qed.

Lemma iter_shr_1_exact k m :
  0 ≤ m →
  SpecFloat.iter_pos shr_1 k (Build_shr_record (m * 2 ^ Z.pos k) false false)
  = Build_shr_record m false false.
Proof.
  revert m. induction k as [k IH|k IH|]; intros m Hm.
  - assert (0 ≤ m * 2 ^ Z.pos k) as H1
      by (apply Z.mul_nonneg_nonneg; [done|apply Z.pow_nonneg; lia]).
    assert (0 ≤ m * 2 ^ Z.pos k * 2 ^ Z.pos k) as H2
      by (apply Z.mul_nonneg_nonneg; [done|apply Z.pow_nonneg; lia]).
    replace (m * 2 ^ Z.pos k~1) with (2 * ((m * 2 ^ Z.pos k) * 2 ^ Z.pos k)).
    + change (SpecFloat.iter_pos shr_1 k~1 ?x)
        with (SpecFloat.iter_pos shr_1 k (SpecFloat.iter_pos shr_1 k (shr_1 x))).
      by rewrite shr_1_double, IH, IH.
    + replace (Z.pos k~1) with (1 + Z.pos k + Z.pos k) by lia.
      rewrite !Z.pow_add_r by lia. lia.
  - assert (0 ≤ m * 2 ^ Z.pos k) as H1
      by (apply Z.mul_nonneg_nonneg; [done|apply Z.pow_nonneg; lia]).
    replace (m * 2 ^ Z.pos k~0) with ((m * 2 ^ Z.pos k) * 2 ^ Z.pos k).
    + change (SpecFloat.iter_pos shr_1 k~0 ?x)
        with (SpecFloat.iter_pos shr_1 k (SpecFloat.iter_pos shr_1 k x)).
      by rewrite IH, IH.
    + replace (Z.pos k~0) with (Z.pos k + Z.pos k) by lia.
      rewrite !Z.pow_add_r by lia. lia.
  - replace (m * 2 ^ 1) with (2 * m) by lia. by apply shr_1_double.
Qed.

Lemma shr_fexp_exact z j e :
  0 < z → 0 ≤ j →
  let n := fexp prec emax (Zdigits2 z + j + e) - e in
  0 ≤ n ≤ j →
  shr_fexp prec emax (z * 2 ^ j) e loc_Exact
  = (Build_shr_record (z * 2 ^ (j - n)) false false, e + n).
Proof.
  intros Hz Hj n Hn. unfold shr_fexp. rewrite Zdigits2_mul_pow2 by done.
  fold n. unfold shr, shr_record_of_loc.
  destruct n as [|k|k] eqn:Hk; [|  |lia].
  - by rewrite Z.sub_0_r, Z.add_0_r.
  - f_equal. replace (z * 2 ^ j) with ((z * 2 ^ (j - Z.pos k)) * 2 ^ Z.pos k).
    + apply iter_shr_1_exact. apply Z.mul_nonneg_nonneg; [lia|]. apply Z.pow_nonneg; lia.
    + rewrite <-Z.mul_assoc, <-Z.pow_add_r by lia. do 2 f_equal. lia.
Qed.

Lemma binary_round_aux_exact s z j e :
  0 < z → 0 ≤ j →
  let n := fexp prec emax (Zdigits2 z + j + e) - e in
  0 ≤ n ≤ j → e + n ≤ emax - prec →
  binary_round_aux prec emax s (z * 2 ^ j) e loc_Exact
  = S754_finite s (Z.to_pos (z * 2 ^ (j - n))) (e + n).
Proof.
  intros Hz Hj n Hn He. unfold binary_round_aux.
  rewrite (shr_fexp_exact z j e Hz Hj Hn). fold n. cbn [shr_m loc_of_shr_record round_nearest_even].
  pose proof (shr_fexp_exact z (j - n) (e + n) Hz) as H2. cbv zeta in H2.
  replace (Zdigits2 z + (j - n) + (e + n)) with (Zdigits2 z + j + e) in H2 by lia.
  replace (fexp prec emax (Zdigits2 z + j + e) - (e + n)) with 0 in H2 by (unfold n; lia).
  rewrite H2 by lia. cbn [shr_m]. rewrite Z.sub_0_r, Z.add_0_r.
  assert (0 < z * 2 ^ (j - n)) as Hpos
    by (apply Z.mul_pos_pos; [done|]; apply Z.pow_pos_nonneg; lia).
  destruct (z * 2 ^ (j - n)) as [|p|p] eqn:Hp; [lia| |lia].
  by rewrite (proj2 (Z.leb_le _ _) He).
Qed.

Lemma Zdigits2_lt m : 0 ≤ m → m < 2 ^ Zdigits2 m.
Proof.
  destruct m as [|p|p]; [done| |lia]. intros _. apply digits2_pos_lt.
Qed.

Lemma Zdigits2_le_bound m d : 0 ≤ m → 0 ≤ d → m < 2 ^ d → Zdigits2 m ≤ d.
Proof.
  intros Hm Hd Hlt. destruct (decide (m = 0)) as [->|]; [done|].
  apply Zdigits2_le_iff; [lia|done..].
Qed.

Lemma Zdigits2_div_pow2 m n :
  0 ≤ m → 0 ≤ n → Zdigits2 (m / 2 ^ n) ≤ Z.max 0 (Zdigits2 m - n).
Proof.
  intros Hm Hn. pose proof (Zdigits2_lt m Hm) as Hlt.
  assert (0 < 2 ^ n) as Hpow by (apply Z.pow_pos_nonneg; lia).
  assert (0 ≤ Zdigits2 m) as Hd by (destruct m; simpl; lia).
  destruct (decide (Zdigits2 m ≤ n)) as [Hle|Hgt].
  - rewrite Z.div_small; [simpl; lia|].
    split; [done|]. eapply Z.lt_le_trans; [exact Hlt|]. by apply Z.pow_le_mono_r.
  - apply Zdigits2_le_bound; [by apply Z.div_pos|lia|].
    rewrite Z.max_r by lia. apply Z.div_lt_upper_bound; [done|].
    rewrite <-Z.pow_add_r by lia. by replace (n + (Zdigits2 m - n)) with (Zdigits2 m) by lia.
Qed.

Lemma Zdigits2_succ m : 0 ≤ m → Zdigits2 (m + 1) ≤ Zdigits2 m + 1.
Proof.
  intros Hm. pose proof (Zdigits2_lt m Hm) as Hlt.
  assert (0 ≤ Zdigits2 m) as Hd by (destruct m; simpl; lia).
  apply Zdigits2_le_bound; [lia..|]. rewrite Z.pow_add_r, Z.pow_1_r by lia. lia.
Qed.

Lemma Zdigits2_mono a b : 0 ≤ a ≤ b → Zdigits2 a ≤ Zdigits2 b.
Proof.
  intros Hab. assert (0 ≤ Zdigits2 b) as Hd by (destruct b; simpl; lia).
  apply Zdigits2_le_bound; [lia..|].
  pose proof (Zdigits2_lt b). lia.
Qed.

(** Rounding does not overflow when the exponent the value asks for is
    within the format. *)
Lemma binary_round_aux_finite s m e l :
  0 < prec → 0 ≤ m →
  e ≤ emax - prec → Zdigits2 m + e - prec + 1 ≤ emax - prec →
  emin prec emax ≤ emax - prec →
  is_finite (binary_round_aux prec emax s m e l) = true.
Proof.
  intros Hprec Hm He Hd Hemin. unfold binary_round_aux.
  destruct (shr_fexp_spec m e l Hm) as (mrs1 & H1 & Hv1). cbv zeta in H1, Hv1.
  rewrite H1.
  set (n1 := Z.max 0 (fexp prec emax (Zdigits2 m + e) - e)) in *.
  pose proof (round_nearest_even_bounds (shr_m mrs1) (loc_of_shr_record mrs1)) as Hr.
  set (m2 := round_nearest_even (shr_m mrs1) (loc_of_shr_record mrs1)) in *.
  assert (0 ≤ shr_m mrs1) as Hm1
    by (rewrite Hv1; apply Z.div_pos; [done|apply Z.pow_pos_nonneg; lia]).
  destruct (shr_fexp_spec m2 (e + n1) loc_Exact) as (mrs2 & H2 & Hv2); [lia|].
  cbv zeta in H2, Hv2. rewrite H2.
  set (n2 := Z.max 0 (fexp prec emax (Zdigits2 m2 + (e + n1)) - (e + n1))) in *.
  assert (0 ≤ shr_m mrs2) as Hm2
    by (rewrite Hv2; apply Z.div_pos; [lia|apply Z.pow_pos_nonneg; lia]).
  destruct (shr_m mrs2) as [|p|p]; [done| |lia].
  assert (Zdigits2 m2 ≤ Z.max 0 (Zdigits2 m - n1) + 1) as Hd2.
  { etrans; [apply (Zdigits2_mono m2 (shr_m mrs1 + 1)); lia|].
    etrans; [apply Zdigits2_succ; lia|].
    rewrite Hv1. pose proof (Zdigits2_div_pow2 m n1). lia. }
  assert (e + n1 + n2 ≤ emax - prec) as Hle by (unfold n1, n2, fexp in *; lia).
  by rewrite (proj2 (Z.leb_le _ _) Hle).
Qed.

(** *** The curves *)

Lemma plot_loss_x_axis self axis train_loss val_loss :
  let ax := plot_loss self axis train_loss val_loss in
  xlim ax = Some (0, Z.of_nat (length train_loss)) ∧
  xticks ax = Some (x_ticks (length train_loss)) ∧
  ticklabels <$> xticklabels ax = Some (format_d <$> x_ticks (length train_loss)).
Proof. by destruct axis. Qed.

Lemma plot_psnr_x_axis self axis train_psnr val_psnr :
  let ax := plot_psnr self axis train_psnr val_psnr in
  xlim ax = Some (0, Z.of_nat (length train_psnr)) ∧
  xticks ax = Some (x_ticks (length train_psnr)) ∧
  ticklabels <$> xticklabels ax = Some (format_d <$> x_ticks (length train_psnr)).
Proof. by destruct axis. Qed.

Lemma set_last_length y v : length (set_last y v) = length y.
Proof. destruct y; [done|]. unfold set_last. by rewrite length_insert. Qed.

Lemma linspace_length start stop num : length (linspace start stop num) = num.
Proof.
  unfold linspace.
  repeat match goal with
         | |- context [if ?b then _ else _] => destruct b
         end;
    rewrite ?set_last_length, !length_fmap; apply length_seq.
Qed.

Lemma x_ticks_length n : length (x_ticks n) = 11%nat.
Proof. unfold x_ticks. by rewrite length_fmap, linspace_length. Qed.

(** *** The two triplet methods *)

(** C4 (as amended).  The figure [get_generated_ct_fig] returns is the
    figure [visualize_generated_ct] writes, for whatever epoch, except for
    the horizontal spacing of the grid: [wspace] is 0.15 in the former and
    0.25 in the latter.  On the same arguments both fail with the same
    exception or both succeed, and the axes (images, labels, PSNR titles)
    are the same. *)
Theorem get_generated_ct_fig_same_axes self lr_ct sr_ct hr_ct epoch :
  get_generated_ct_fig self lr_ct sr_ct hr_ct =
  set_gridspec_kw [("hspace", 0.05); ("wspace", 0.15)]%Q <$>
    (saved <$> visualize_generated_ct self lr_ct sr_ct hr_ct epoch).
Proof.
  rewrite visualize_generated_ct_unfold, get_generated_ct_fig_unfold.
  destruct (to_numpy lr_ct) as [lr|]; [repeat py_step|done].
  destruct (to_numpy sr_ct) as [sr|]; [repeat py_step|done].
  destruct (to_numpy hr_ct) as [hr|]; [repeat py_step|done].
  pose proof (for_each_fmap (set_gridspec_kw [("hspace", 0.05); ("wspace", 0.15)]%Q)
                (triplet_column self lr sr hr) (range 8)
                (triplet_column_gridspec_kw _ self lr sr hr)
                (subplots 3 8 (20, 6) [("hspace", 0.05); ("wspace", 0.25)]%Q)) as Hloop.
  change (set_gridspec_kw _ (subplots 3 8 _ _))
    with (subplots 3 8 (20, 6) [("hspace", 0.05); ("wspace", 0.15)]%Q) in Hloop.
  rewrite Hloop; clear Hloop. destruct (for_each _ _ _); reflexivity.
Qed.

(** C9.  [visualize_generated_ct] reads its arguments at the indices 0 to 7
    only: two calls whose arguments have more than eight images and agree
    on the first eight write the same figure to the same file. *)
Theorem visualize_generated_ct_first_8 self lr_ct sr_ct hr_ct lr_ct' sr_ct' hr_ct' epoch :
  agree_on_first_8 lr_ct lr_ct' →
  agree_on_first_8 sr_ct sr_ct' →
  agree_on_first_8 hr_ct hr_ct' →
  visualize_generated_ct self lr_ct sr_ct hr_ct epoch =
  visualize_generated_ct self lr_ct' sr_ct' hr_ct' epoch.
Proof.
  intros Hlr Hsr Hhr. rewrite !visualize_generated_ct_unfold.
  destruct (agree_getitem _ _ 0 Hlr) as (lr & lr' & -> & -> & _); [lia|].
  destruct (agree_getitem _ _ 0 Hsr) as (sr & sr' & -> & -> & _); [lia|].
  destruct (agree_getitem _ _ 0 Hhr) as (hr & hr' & -> & -> & _); [lia|].
  rewrite !to_numpy_tensor. repeat py_step.
  rewrite (for_each_ext (triplet_column self (squeeze lr) (squeeze sr) (squeeze hr))
                        (triplet_column self (squeeze lr') (squeeze sr') (squeeze hr'))); [done|].
  intros idx fig Hidx%elem_of_seq.
  apply triplet_column_agree.
  - destruct (agree_getitem _ _ idx Hlr) as (? & ? & [= <-] & [= <-] & ->); [lia|done].
  - destruct (agree_getitem _ _ idx Hsr) as (? & ? & [= <-] & [= <-] & ->); [lia|done].
  - destruct (agree_getitem _ _ idx Hhr) as (? & ? & [= <-] & [= <-] & ->); [lia|done].
Qed.

(** C5 (as amended).  The triplet methods take tensors and convert them
    themselves, with [squeeze()] then [numpy()].  A plain array has no
    [numpy] method: when one of the three arguments is a plain array, both
    methods raise [AttributeError], and they do so before any figure is
    made.  On tensors the conversion itself succeeds. *)
Theorem triplet_methods_convert_tensors self lr_ct sr_ct hr_ct epoch :
  (is_array lr_ct || is_array sr_ct || is_array hr_ct = true →
     visualize_generated_ct self lr_ct sr_ct hr_ct epoch = Raise AttributeError ∧
     get_generated_ct_fig self lr_ct sr_ct hr_ct = Raise AttributeError) ∧
  (is_array lr_ct || is_array sr_ct || is_array hr_ct = false →
     to_numpy lr_ct = Return (squeeze (array_of lr_ct)) ∧
     to_numpy sr_ct = Return (squeeze (array_of sr_ct)) ∧
     to_numpy hr_ct = Return (squeeze (array_of hr_ct))).
Proof.
  rewrite visualize_generated_ct_unfold, get_generated_ct_fig_unfold.
  destruct lr_ct, sr_ct, hr_ct; simpl; split; intros H; try done.
Qed.

(** C7.  On three batches of eight images [visualize_generated_ct] returns
    and writes a grid of three rows of eight axes.  Column [idx] shows the
    [idx]-th low-resolution image in the top row, the super-resolution
    image in the middle row and the high-resolution image in the bottom
    row.  The PSNR of the column is the title of its top axes and of no
    other.  The axes of the first column carry the row labels, in capitals
    (followed by two line feeds); the axes of the other columns carry none. *)
Theorem triplet_grid_layout self lr_ct sr_ct hr_ct epoch h w h' w' :
  is_batch 8 h' w' lr_ct → is_batch 8 h w sr_ct → is_batch 8 h w hr_ct →
  ∃ out,
    visualize_generated_ct self lr_ct sr_ct hr_ct epoch = Return out ∧
    length (axes (saved out)) = 3%nat ∧
    Forall (λ row, length row = 8%nat) (axes (saved out)) ∧
    ∀ idx, (idx < 8)%nat →
      ∃ top mid bot,
        get_axes (saved out) 0 idx = Some top ∧
        get_axes (saved out) 1 idx = Some mid ∧
        get_axes (saved out) 2 idx = Some bot ∧
        image_data <$> images top = [image_at (array_of lr_ct) idx] ∧
        image_data <$> images mid = [image_at (array_of sr_ct) idx] ∧
        image_data <$> images bot = [image_at (array_of hr_ct) idx] ∧
        text <$> title top =
          Some ("PSNR = " +:+
                format_f 2 (column_psnr (array_of sr_ct) (array_of hr_ct) idx) +:+ LF) ∧
        title mid = None ∧ title bot = None ∧
        (idx = 0%nat →
           text <$> ylabel top = Some (upper "low-res" +:+ LF +:+ LF) ∧
           text <$> ylabel mid = Some (upper "super-res" +:+ LF +:+ LF) ∧
           text <$> ylabel bot = Some (upper "high-res" +:+ LF +:+ LF)) ∧
        ((0 < idx)%nat → ylabel top = None ∧ ylabel mid = None ∧ ylabel bot = None).
Proof.
  intros Hlr Hsr Hhr. eexists. split; [by eapply visualize_generated_ct_ok|].
  cbn [saved axes].
  destruct (triplet_axes_size self (array_of lr_ct) (array_of sr_ct) (array_of hr_ct))
    as [Hrows Hcols].
  split_and!; [done..|].
  intros idx Hidx.
  destruct (triplet_axes_lookup self (array_of lr_ct) (array_of sr_ct) (array_of hr_ct)
              (20, 6) [("hspace", 0.05); ("wspace", 0.25)]%Q idx Hidx) as (Htop & Hmid & Hbot).
  do 3 eexists. split_and!; [exact Htop|exact Hmid|exact Hbot|done..| |].
  - by intros ->.
  - intros Hpos. unfold row_label. by rewrite bool_decide_eq_true_2.
Qed.

(** C2 (as amended).  When the super-resolution image of a column is the
    high-resolution image, its pixels are finite, and the square of the
    range of the high-resolution image is not zero in the float format
    (the image is not constant, and not so flat that the square
    underflows), the mean squared error is zero and the PSNR is positive
    infinity.  Both triplet methods return, and the title of the column is
    that infinity as [str.format] renders it.  [np.log10] is taken to map
    positive infinity to itself, and the format to have a positive
    precision and [emin <= 0], as float32 and float64 do. *)
Theorem psnr_of_perfect_match self lr_ct sr_ct hr_ct epoch h w h' w' idx hi lo :
  0 < prec → emin prec emax ≤ 0 →
  log10 (S754_infinity false) = S754_infinity false →
  is_batch 8 h' w' lr_ct → is_batch 8 h w sr_ct → is_batch 8 h w hr_ct →
  (idx < 8)%nat →
  image_at (array_of sr_ct) idx = image_at (array_of hr_ct) idx →
  Forall (λ x, is_finite x = true) (data (image_at (array_of hr_ct) idx)) →
  reduce maximum (data (image_at (array_of hr_ct) idx)) = Some hi →
  reduce minimum (data (image_at (array_of hr_ct) idx)) = Some lo →
  nonzero (square prec emax (SFsub prec emax hi lo)) →
  column_psnr (array_of sr_ct) (array_of hr_ct) idx = S754_infinity false ∧
  ∃ out fig top top',
    visualize_generated_ct self lr_ct sr_ct hr_ct epoch = Return out ∧
    get_axes (saved out) 0 idx = Some top ∧
    text <$> title top = Some ("PSNR = " +:+ format_f 2 (S754_infinity false) +:+ LF) ∧
    get_generated_ct_fig self lr_ct sr_ct hr_ct = Return fig ∧
    get_axes fig 0 idx = Some top' ∧
    text <$> title top' = Some ("PSNR = " +:+ format_f 2 (S754_infinity false) +:+ LF).
Proof.
  intros Hprec Hemin Hlog Hlr Hsr Hhr Hidx Hsame Hfin Hhi Hlo Hnz.
  assert (column_psnr (array_of sr_ct) (array_of hr_ct) idx = S754_infinity false) as Hinf.
  { unfold column_psnr. rewrite Hsame. by rewrite (spec_psnr_diag _ hi lo). }
  split; [done|].
  do 4 eexists. split_and!.
  - by eapply visualize_generated_ct_ok.
  - by apply triplet_axes_lookup.
  - simpl. by rewrite Hinf.
  - by eapply get_generated_ct_fig_ok.
  - by apply triplet_axes_lookup.
  - simpl. by rewrite Hinf.
Qed.

(** *** The curve methods *)

(** C8 (as amended).  [plot_loss] draws the validation series first and the
    training series second, so the training line lies over the validation
    line; the legend is ["Validation"; "Train"], in this order; the title
    of the axes is the text PERCEPTUAL LOSS, in capitals, followed by a
    line feed. *)
Theorem plot_loss_lines_legend_title self axis train_loss val_loss :
  let ax := plot_loss self axis train_loss val_loss in
  ydata <$> lines ax = (ydata <$> lines axis) ++ [val_loss; train_loss] ∧
  legend_labels <$> legend ax = Some ["Validation"; "Train"] ∧
  text <$> title ax = Some ("PERCEPTUAL LOSS" +:+ LF).
Proof.
  destruct axis. simpl. split_and!; [|done..].
  by rewrite <-!app_assoc, !fmap_app.
Qed.

(** C10.  On an empty training series [plot_loss] sets the limits of the
    x-axis to (0, 0), and the eleven x-ticks are all 0, labelled "0".  The
    method raises nothing: in the model it is a total function. *)
Theorem plot_loss_empty_series self axis val_loss :
  let ax := plot_loss self axis [] val_loss in
  xlim ax = Some (0, 0) ∧
  xticks ax = Some (replicate 11 0) ∧
  ticklabels <$> xticklabels ax = Some (replicate 11 "0").
Proof.
  destruct (plot_loss_x_axis self axis [] val_loss) as (Hlim & Hticks & Hlabels).
  change (length (@nil float)) with 0%nat in *.
  assert (x_ticks 0 = replicate 11 0) as Hzero by by vm_compute.
  rewrite Hzero in Hticks, Hlabels. by split_and!.
Qed.

(** *** The files *)

(** C6.  Each method that saves its figure writes it in the plots
    directory, under a name made from the epoch: [visualize_generated_ct]
    writes visualization_epoch_<epoch+1>.svg, [visualize_performance]
    writes performance_epoch_<epoch+1>.svg, and [visualize_full_slices]
    writes test_results_<name>_<epoch>.svg, with the epoch as it is. *)
Theorem saved_file_names self epoch ct_name :
  (∀ lr_ct sr_ct hr_ct out,
     visualize_generated_ct self lr_ct sr_ct hr_ct epoch = Return out →
     in_directory (_plots_dir self)
       ("visualization_epoch_" +:+ format_d (epoch + 1) +:+ ".svg") (path out)) ∧
  (∀ train_dict val_dict out,
     visualize_performance self train_dict val_dict epoch = Return out →
     in_directory (_plots_dir self)
       ("performance_epoch_" +:+ format_d (epoch + 1) +:+ ".svg") (path out)) ∧
  (∀ lr_slice sr_slice hr_slice scores_dict out,
     visualize_full_slices self lr_slice sr_slice hr_slice scores_dict ct_name epoch
       = Return out →
     in_directory (_plots_dir self)
       ("test_results_" +:+ ct_name +:+ "_" +:+ format_d epoch +:+ ".svg") (path out)).
Proof.
  split_and!.
  - intros lr_ct sr_ct hr_ct out Hout. rewrite visualize_generated_ct_unfold in Hout.
    py_returned Hout. injection Hout as <-. by apply path_join_in_directory.
  - intros train_dict val_dict out Hout. unfold visualize_performance in Hout.
    py_returned Hout. injection Hout as <-. by apply path_join_in_directory.
  - intros lr_slice sr_slice hr_slice scores_dict out Hout.
    unfold visualize_full_slices in Hout.
    py_returned Hout. injection Hout as <-. by apply path_join_in_directory.
Qed.

End Visualizer.

(** ** Float64 on integers

    [np.linspace] computes in float64.  On the integers below 2^53 the
    conversion from an integer is exact, and so are a product and a
    quotient whose exact value is such an integer; the quotient of two
    such integers is always finite. *)

Lemma fexp_64 x : fexp 53 1024 x = Z.max (x - 53) (-1074).
Proof. reflexivity. Qed.

Lemma iter_xO p k : Z.pos (Pos.iter xO p k) = Z.pos p * 2 ^ Z.pos k.
Proof.
  change (Pos.iter xO p k) with (shift_pos k p).
  rewrite shift_pos_correct. change (Z.pow_pos 2 k) with (2 ^ Z.pos k). lia.
Qed.

Lemma cint_digits z :
  0 < z < 2 ^ 53 → 1 ≤ Zdigits2 z ≤ 53.
Proof.
  intros Hz. pose proof (Zdigits2_pos z). pose proof (Zdigits2_le_iff z 53). lia.
Qed.

Lemma cint_mantissa z :
  0 < z < 2 ^ 53 →
  Z.pos (Z.to_pos (z * 2 ^ (53 - Zdigits2 z))) = z * 2 ^ (53 - Zdigits2 z).
Proof.
  intros Hz. pose proof (cint_digits z Hz).
  apply Z2Pos.id, Z.mul_pos_pos; [lia|]. apply Z.pow_pos_nonneg; lia.
Qed.

Lemma of_int_cint z : 0 < z < 2 ^ 53 → F64.of_int z = cint z.
Proof.
  intros Hz. pose proof (cint_digits z Hz) as Hd.
  destruct z as [|p|p]; [lia| |lia].
  unfold F64.of_int, F64.prec, F64.emax, of_int, binary_normalize, binary_round, shl_align, cint.
  change (Z.pos (digits2_pos p)) with (Zdigits2 (Z.pos p)).
  set (d := Zdigits2 (Z.pos p)) in *.
  rewrite fexp_64.
  replace (Z.max (d + 0 - 53) (-1074) - 0) with (d - 53) by lia.
  destruct (d - 53) as [|k|k] eqn:Hk; [| lia |].
  - replace (Z.max (d + 0 - 53) (-1074)) with 0 by lia.
    replace (Z.pos p) with (Z.pos p * 2 ^ 0) at 1 by lia.
    rewrite binary_round_aux_exact; fold d; rewrite ?fexp_64; try lia.
    f_equal; [|lia]. do 3 f_equal. lia.
  - rewrite iter_xO.
    rewrite binary_round_aux_exact; fold d; rewrite ?fexp_64; try lia.
    f_equal; [|lia]. do 3 f_equal. lia.
Qed.

Lemma astype_int_cint z : 0 < z < 2 ^ 53 → astype_int (cint z) = z.
Proof.
  intros Hz. pose proof (cint_digits z Hz) as Hd.
  unfold astype_int, cint. rewrite cint_mantissa by done.
  rewrite Z.shiftl_div_pow2 by lia.
  replace (- (Zdigits2 z - 53)) with (53 - Zdigits2 z) by lia.
  rewrite Z.div_mul by (apply Z.pow_nonzero; lia).
  simpl cond_Zopp. rewrite bool_decide_eq_true_2; [done|].
  assert (2 ^ 53 < 2 ^ 63) by done. lia.
Qed.

Lemma mul_cint a b :
  0 < a → 0 < b → a * b < 2 ^ 53 → F64.mul (cint a) (cint b) = cint (a * b).
Proof.
  intros Ha Hb Hab.
  assert (0 < a < 2 ^ 53) as Ha' by nia.
  assert (0 < b < 2 ^ 53) as Hb' by nia.
  assert (0 < a * b < 2 ^ 53) as Hab' by nia.
  pose proof (cint_digits a Ha'). pose proof (cint_digits b Hb').
  pose proof (cint_digits _ Hab'). pose proof (Zdigits2_mul a b Ha Hb).
  unfold F64.mul, F64.prec, F64.emax, cint, SFmul. simpl xorb.
  rewrite Pos2Z.inj_mul, !cint_mantissa by done.
  replace (a * 2 ^ (53 - Zdigits2 a) * (b * 2 ^ (53 - Zdigits2 b)))
    with (a * b * 2 ^ (106 - Zdigits2 a - Zdigits2 b)).
  - rewrite binary_round_aux_exact; rewrite ?fexp_64; try lia.
    f_equal; [|lia]. do 3 f_equal. lia.
  - replace (106 - Zdigits2 a - Zdigits2 b)
      with ((53 - Zdigits2 a) + (53 - Zdigits2 b)) by lia.
    rewrite Z.pow_add_r by lia. lia.
Qed.

Lemma div_eucl_exact a b : 0 < b → Z.div_eucl (b * a) b = (a, 0).
Proof.
  intros Hb. pose proof (Z_div_mod (b * a) b) as Hdm.
  destruct (Z.div_eucl (b * a) b) as [q r].
  destruct Hdm as [Heq Hr]; [lia|].
  assert (q = a) as -> by nia. f_equal. lia.
Qed.

Lemma new_location_exact m : new_location m 0 = loc_Exact.
Proof. unfold new_location. by destruct (Z.even m). Qed.

Lemma div_cint a b :
  0 < a → 0 < b → a * b < 2 ^ 53 → F64.div (cint (a * b)) (cint b) = cint a.
Proof.
  intros Ha Hb Hab.
  assert (0 < a < 2 ^ 53) as Ha' by nia.
  assert (0 < b < 2 ^ 53) as Hb' by nia.
  assert (0 < a * b < 2 ^ 53) as Hab' by nia.
  pose proof (cint_digits a Ha'). pose proof (cint_digits b Hb').
  pose proof (cint_digits _ Hab'). pose proof (Zdigits2_mul a b Ha Hb).
  unfold F64.div, F64.prec, F64.emax, cint, SFdiv, SFdiv_core_binary. simpl xorb.
  rewrite !cint_mantissa by done.
  rewrite !Zdigits2_mul_pow2 by lia. rewrite fexp_64.
  set (dab := Zdigits2 (a * b)) in *. set (da := Zdigits2 a) in *.
  set (db := Zdigits2 b) in *.
  replace (Z.max (dab + (53 - dab) + (dab - 53) - (db + (53 - db) + (db - 53)) - 53) (-1074)
             `min` (dab - 53 - (db - 53))) with (dab - db - 53) by lia.
  replace (dab - 53 - (db - 53) - (dab - db - 53)) with 53 by lia.
  rewrite Z.shiftl_mul_pow2 by lia.
  replace (a * b * 2 ^ (53 - dab) * 2 ^ 53)
    with (b * 2 ^ (53 - db) * (a * 2 ^ (53 + db - dab))).
  - rewrite div_eucl_exact
      by (apply Z.mul_pos_pos; [lia|apply Z.pow_pos_nonneg; lia]).
    rewrite new_location_exact.
    rewrite binary_round_aux_exact; fold da; rewrite ?fexp_64; try lia.
    f_equal; [|lia]. do 3 f_equal. lia.
  - assert (2 ^ (53 - db) * 2 ^ (53 + db - dab) = 2 ^ (53 - dab) * 2 ^ 53) as Hpow
      by (rewrite <-!Z.pow_add_r by lia; f_equal; lia).
    replace (b * 2 ^ (53 - db) * (a * 2 ^ (53 + db - dab)))
      with (a * b * (2 ^ (53 - db) * 2 ^ (53 + db - dab))) by ring.
    rewrite Hpow. ring.
Qed.

Lemma cint_mantissa_bounds z :
  0 < z < 2 ^ 53 → 2 ^ 52 ≤ z * 2 ^ (53 - Zdigits2 z) < 2 ^ 53.
Proof.
  intros Hz. pose proof (cint_digits z Hz) as Hd.
  assert (0 < z * 2 ^ (53 - Zdigits2 z)) as Hpos
    by (apply Z.mul_pos_pos; [lia|apply Z.pow_pos_nonneg; lia]).
  assert (Zdigits2 (z * 2 ^ (53 - Zdigits2 z)) = 53) as Hd53
    by (rewrite Zdigits2_mul_pow2 by lia; lia).
  pose proof (Zdigits2_le _ Hpos) as Hlo. pose proof (Zdigits2_lt (z * 2 ^ (53 - Zdigits2 z))) as Hhi.
  rewrite Hd53 in Hlo, Hhi. change (53 - 1) with 52 in Hlo. lia.
Qed.

Lemma div_cint_finite a b :
  0 < a < 2 ^ 53 → 0 < b < 2 ^ 53 → is_finite (F64.div (cint a) (cint b)) = true.
Proof.
  intros Ha Hb.
  pose proof (cint_digits a Ha). pose proof (cint_digits b Hb).
  pose proof (cint_mantissa_bounds a Ha) as Hma.
  pose proof (cint_mantissa_bounds b Hb) as Hmb.
  unfold F64.div, F64.prec, F64.emax, cint, SFdiv, SFdiv_core_binary. simpl xorb.
  rewrite !cint_mantissa by done.
  rewrite !Zdigits2_mul_pow2 by lia. rewrite fexp_64.
  set (da := Zdigits2 a) in *. set (db := Zdigits2 b) in *.
  set (ma := a * 2 ^ (53 - da)) in *. set (mb := b * 2 ^ (53 - db)) in *.
  replace (Z.max (da + (53 - da) + (da - 53) - (db + (53 - db) + (db - 53)) - 53) (-1074)
             `min` (da - 53 - (db - 53))) with (da - db - 53) by lia.
  replace (da - 53 - (db - 53) - (da - db - 53)) with 53 by lia.
  rewrite Z.shiftl_mul_pow2 by lia.
  pose proof (Z_div_mod (ma * 2 ^ 53) mb) as Hdm.
  destruct (Z.div_eucl (ma * 2 ^ 53) mb) as [q r].
  destruct Hdm as [Heq Hr]; [lia|].
  assert (0 ≤ q < 2 ^ 54) as Hq.
  { change (2 ^ 54) with (2 * 2 ^ 53). change (2 ^ 52) with 4503599627370496 in *.
    change (2 ^ 53) with 9007199254740992 in *. nia. }
  apply binary_round_aux_finite; [lia|lia|lia| |done].
  pose proof (Zdigits2_le_bound q 54). lia.
Qed.

Lemma x_ticks_samples n :
  x_ticks n = (astype_int <$> ((λ i, sample64 (Z.of_nat n) (Z.of_nat i)) <$> seq 0 10))
              ++ [astype_int (F64.of_int (Z.of_nat n))].
Proof.
  unfold x_ticks, linspace, sample64.
  change (Z.of_nat (11 - 1)) with 10.
  destruct (F64.eqb _ _); reflexivity.
Qed.

Lemma of_int_nonneg z :
  0 ≤ z < 2 ^ 53 → F64.of_int z = if bool_decide (z = 0) then S754_zero false else cint z.
Proof.
  intros Hz. case_bool_decide as H0; [by subst|]. apply of_int_cint. lia.
Qed.

Lemma astype_int_of_int z : 0 ≤ z < 2 ^ 53 → astype_int (F64.of_int z) = z.
Proof.
  intros Hz. rewrite of_int_nonneg by done. case_bool_decide; [by subst|].
  apply astype_int_cint. lia.
Qed.

Lemma sample64_0 n : 0 ≤ n < 2 ^ 53 → astype_int (sample64 n 0) = 0.
Proof.
  intros Hn. unfold sample64. rewrite (of_int_nonneg n) by done.
  case_bool_decide as H0; [by vm_compute|].
  change (F64.of_int 10) with (cint 10). change (F64.of_int 0) with (S754_zero false).
  change (F64.sub (cint n) (S754_zero false)) with (cint n).
  assert (is_finite (F64.div (cint n) (cint 10)) = true) as Hfin
    by (apply div_cint_finite; [lia|done]).
  destruct (F64.div (cint n) (cint 10)) as [s|s| |s m e]; try discriminate Hfin.
  - by destruct s.
  - by destruct s.
Qed.

Lemma sample64_multiple k i :
  0 < k → 0 ≤ i ≤ 9 → 10 * k < 2 ^ 53 →
  astype_int (sample64 (10 * k) i) = i * k.
Proof.
  intros Hk Hi Hlt. unfold sample64.
  rewrite (of_int_cint (10 * k)) by lia.
  change (F64.of_int 10) with (cint 10). change (F64.of_int 0) with (S754_zero false).
  change (F64.sub (cint (10 * k)) (S754_zero false)) with (cint (10 * k)).
  rewrite (Z.mul_comm 10 k). rewrite div_cint; [|lia|lia|lia].
  change (F64.eqb (cint k) (S754_zero false)) with false. cbv iota.
  destruct (decide (i = 0)) as [->|Hi0]; [done|].
  assert (0 < i * k < 2 ^ 53) as Hik by nia.
  assert (0 < i < 2 ^ 53) as Hi' by nia.
  rewrite (of_int_cint i), mul_cint by lia.
  change (F64.add (cint (i * k)) (S754_zero false)) with (cint (i * k)).
  by apply astype_int_cint.
Qed.

(** ** The metric, and the examples *)

(** C1.  On three batches of eight images, the title of the top axes of
    every column shows the PSNR the specification defines for the images
    of that column: 10 * log10(range^2 / mse), with the range and the mean
    squared error taken on the pixels of that column.  In float32 and in
    float64, on a high-resolution image of maximum 1.0 and minimum 0.0 and
    a mean squared error of 0.01, the PSNR is 20.0 as soon as [np.log10]
    maps 100.0 to 2.0. *)
Theorem psnr_of_column prec emax log10 format_f self lr_ct sr_ct hr_ct epoch h w h' w' :
  is_batch 8 h' w' lr_ct → is_batch 8 h w sr_ct → is_batch 8 h w hr_ct →
  (∀ idx, (idx < 8)%nat →
     ∃ out top p,
       visualize_generated_ct prec emax log10 format_f self lr_ct sr_ct hr_ct epoch
         = Return out ∧
       get_axes (saved out) 0 idx = Some top ∧
       spec_psnr prec emax log10 (data (image_at (array_of sr_ct) idx))
                 (data (image_at (array_of hr_ct) idx)) = Some p ∧
       text <$> title top = Some ("PSNR = " +:+ format_f 2%nat p +:+ LF)) ∧
  (∀ sr_px hr_px,
     (prec, emax) = (24, 128) ∨ (prec, emax) = (53, 1024) →
     reduce maximum hr_px = Some (of_int prec emax 1) →
     reduce minimum hr_px = Some (of_int prec emax 0) →
     fmean prec emax (zip_with (squared_error prec emax) sr_px hr_px)
       = SFdiv prec emax (of_int prec emax 1) (of_int prec emax 100) →
     log10 (of_int prec emax 100) = of_int prec emax 2 →
     spec_psnr prec emax log10 sr_px hr_px = Some (of_int prec emax 20)).
Proof.
  intros Hlr Hsr Hhr. split.
  - intros idx Hidx. do 3 eexists. split_and!.
    + by eapply visualize_generated_ct_ok.
    + by apply triplet_axes_lookup.
    + destruct hr_ct as [hr|]; [|done]. by apply (batch_column_psnr prec emax log10 8 h w).
    + done.
  - intros sr_px hr_px Hfmt Hhi Hlo Hmse Hlog.
    rewrite (spec_psnr_psnr_of prec emax log10 _ _ _ _ Hhi Hlo), Hmse. f_equal.
    unfold psnr_of, square.
    destruct Hfmt as [[= -> ->]|[= -> ->]].
    + assert (SFdiv 24 128
                (SFmul 24 128 (SFsub 24 128 (of_int 24 128 1) (of_int 24 128 0))
                              (SFsub 24 128 (of_int 24 128 1) (of_int 24 128 0)))
                (SFdiv 24 128 (of_int 24 128 1) (of_int 24 128 100))
              = of_int 24 128 100) as -> by by vm_compute.
      rewrite Hlog. by vm_compute.
    + assert (SFdiv 53 1024
                (SFmul 53 1024 (SFsub 53 1024 (of_int 53 1024 1) (of_int 53 1024 0))
                               (SFsub 53 1024 (of_int 53 1024 1) (of_int 53 1024 0)))
                (SFdiv 53 1024 (of_int 53 1024 1) (of_int 53 1024 100))
              = of_int 53 1024 100) as -> by by vm_compute.
      rewrite Hlog. by vm_compute.
Qed.

(** *** The x-ticks of the curves *)

Lemma x_ticks_first n : Z.of_nat n < 2 ^ 53 → x_ticks n !! 0%nat = Some 0.
Proof.
  intros Hn. rewrite x_ticks_samples. simpl. f_equal.
  apply sample64_0. lia.
Qed.

Lemma x_ticks_last n : Z.of_nat n < 2 ^ 53 → x_ticks n !! 10%nat = Some (Z.of_nat n).
Proof.
  intros Hn. rewrite x_ticks_samples. simpl. f_equal.
  apply astype_int_of_int. lia.
Qed.

Lemma x_ticks_multiple n k :
  Z.of_nat n < 2 ^ 53 → Z.of_nat n = 10 * k →
  x_ticks n = (λ i, Z.of_nat i * k) <$> seq 0 11.
Proof.
  intros Hn Hk. rewrite x_ticks_samples.
  change (seq 0 11) with (seq 0 10 ++ [10%nat]). rewrite fmap_app. f_equal.
  - rewrite <-list_fmap_compose. apply list_fmap_ext.
    intros i x [-> Hi]%lookup_seq. simpl.
    destruct (decide (k = 0)) as [->|Hk0].
    + replace (Z.of_nat n) with 0 by lia.
      do 10 (destruct i as [|i]; [by vm_compute|]). lia.
    + rewrite Hk. apply sample64_multiple; lia.
  - simpl. f_equal. rewrite astype_int_of_int; lia.
Qed.

Lemma spaced_by_multiples k m :
  spaced_by k ((λ i, Z.of_nat i * k) <$> seq 0 m).
Proof.
  intros i x y. rewrite !list_lookup_fmap.
  intros Hx Hy.
  destruct (seq 0 m !! i) as [a|] eqn:Ha; [|done].
  destruct (seq 0 m !! S i) as [b|] eqn:Hb; [|done].
  apply lookup_seq in Ha as [-> _]. apply lookup_seq in Hb as [-> _].
  simpl in Hx, Hy. injection Hx as <-. injection Hy as <-. lia.
Qed.

(** C3 (as amended).  Both curve methods take as x-ticks the eleven samples
    of [np.linspace(0, n, 11)] cast to integers, [n] being the length of
    the training series (below 2^53, where float64 holds every integer).
    The first tick is 0 and the last is [n].  When [n] is a multiple of 10
    the ticks are the evenly spaced integers 0, n/10, ..., n; for
    [n = 100] they are 0, 10, ..., 100.  For other [n] the cast truncates
    the samples and the spacing need not be even. *)
Theorem curves_x_ticks format_f get_ylim self axis train val :
  Z.of_nat (length train) < 2 ^ 53 →
  xticks (plot_loss format_f get_ylim self axis train val) = Some (x_ticks (length train)) ∧
  xticks (plot_psnr format_f get_ylim self axis train val) = Some (x_ticks (length train)) ∧
  length (x_ticks (length train)) = 11%nat ∧
  x_ticks (length train) !! 0%nat = Some 0 ∧
  x_ticks (length train) !! 10%nat = Some (Z.of_nat (length train)) ∧
  (∀ k, Z.of_nat (length train) = 10 * k →
        x_ticks (length train) = (λ i, Z.of_nat i * k) <$> seq 0 11 ∧
        spaced_by k (x_ticks (length train))) ∧
  (length train = 100%nat →
   x_ticks (length train) = [0; 10; 20; 30; 40; 50; 60; 70; 80; 90; 100]).
Proof.
  intros Hn. split_and!.
  - apply plot_loss_x_axis.
  - apply plot_psnr_x_axis.
  - apply x_ticks_length.
  - by apply x_ticks_first.
  - by apply x_ticks_last.
  - intros k Hk. rewrite (x_ticks_multiple _ k Hn Hk).
    split; [done|apply spaced_by_multiples].
  - intros Hlen. rewrite (x_ticks_multiple _ 10 Hn); [done|lia].
Qed.

(** *** The sample batches *)

Lemma sample_lr_batch : is_batch 8 2 2 sample_lr.
Proof. split_and!; [by vm_compute|done|lia..]. Qed.

Lemma sample_sr_batch : is_batch 8 4 4 sample_sr.
Proof. split_and!; [by vm_compute|done|lia..]. Qed.

Lemma sample_hr_batch : is_batch 8 4 4 sample_hr.
Proof. split_and!; [by vm_compute|done|lia..]. Qed.

Lemma sample_flat_batch : is_batch 8 2 2 sample_flat.
Proof. split_and!; [by vm_compute|done|lia..]. Qed.

Lemma sample_hr_9_10_agree : agree_on_first_8 sample_hr_9 sample_hr_10.
Proof.
  eexists _, _, 9%nat, 10%nat, [4; 4]%nat. split_and!; [done..|lia|lia|].
  intros idx Hidx.
  do 8 (destruct idx as [|idx]; [by vm_compute|]). lia.
Qed.

(** *** Examples of the theorems *)

(** C1 on the sample batches, and on the two images of ten by ten pixels:
    maximum 1.0, minimum 0.0, mean squared error 0.01, PSNR 20.0. *)
Lemma psnr_of_column_witness :
  (∃ out top p,
     visualize_generated_ct 53 1024 log10_special format_special sample_visualizer
       sample_lr sample_sr sample_hr 4 = Return out ∧
     get_axes (saved out) 0 0 = Some top ∧
     spec_psnr 53 1024 log10_special (data (image_at (array_of sample_sr) 0))
               (data (image_at (array_of sample_hr) 0)) = Some p ∧
     text <$> title top = Some ("PSNR = " +:+ format_special 2 p +:+ LF)) ∧
  spec_psnr 53 1024 log10_special sample_sr_pixels sample_hr_pixels
    = Some (of_int 53 1024 20).
Proof.
  destruct (psnr_of_column 53 1024 log10_special format_special sample_visualizer
              sample_lr sample_sr sample_hr 4 4 4 2 2
              sample_lr_batch sample_sr_batch sample_hr_batch) as [Hcolumns Hexample].
  split.
  - apply Hcolumns. lia.
  - apply Hexample; [by right|by vm_compute..].
Defined.

(** C2 on a column whose two images are the same. *)
Lemma psnr_of_perfect_match_witness :
  column_psnr 53 1024 log10_special (array_of sample_hr) (array_of sample_hr) 0
    = S754_infinity false ∧
  ∃ out fig top top',
    visualize_generated_ct 53 1024 log10_special format_special sample_visualizer
      sample_lr sample_hr sample_hr 0 = Return out ∧
    get_axes (saved out) 0 0 = Some top ∧
    text <$> title top = Some ("PSNR = " +:+ format_special 2 (S754_infinity false) +:+ LF) ∧
    get_generated_ct_fig 53 1024 log10_special format_special sample_visualizer
      sample_lr sample_hr sample_hr = Return fig ∧
    get_axes fig 0 0 = Some top' ∧
    text <$> title top' = Some ("PSNR = " +:+ format_special 2 (S754_infinity false) +:+ LF).
Proof.
  apply (psnr_of_perfect_match 53 1024 log10_special format_special sample_visualizer
           sample_lr sample_hr sample_hr 0 4 4 2 2 0 (F64.of_int 15) (F64.of_int 0)).
  - lia.
  - by vm_compute.
  - done.
  - exact sample_lr_batch.
  - exact sample_hr_batch.
  - exact sample_hr_batch.
  - lia.
  - done.
  - vm_compute. by repeat constructor.
  - by vm_compute.
  - by vm_compute.
  - by vm_compute.
Defined.

(** C7 on the sample batches. *)
Lemma triplet_grid_layout_witness :
  ∃ out,
    visualize_generated_ct 53 1024 log10_special format_special sample_visualizer
      sample_lr sample_sr sample_hr 4 = Return out ∧
    length (axes (saved out)) = 3%nat ∧
    Forall (λ row, length row = 8%nat) (axes (saved out)) ∧
    ∀ idx, (idx < 8)%nat →
      ∃ top mid bot,
        get_axes (saved out) 0 idx = Some top ∧
        get_axes (saved out) 1 idx = Some mid ∧
        get_axes (saved out) 2 idx = Some bot ∧
        image_data <$> images top = [image_at (array_of sample_lr) idx] ∧
        image_data <$> images mid = [image_at (array_of sample_sr) idx] ∧
        image_data <$> images bot = [image_at (array_of sample_hr) idx] ∧
        text <$> title top =
          Some ("PSNR = " +:+
                format_special 2 (column_psnr 53 1024 log10_special (array_of sample_sr)
                                              (array_of sample_hr) idx) +:+ LF) ∧
        title mid = None ∧ title bot = None ∧
        (idx = 0%nat →
           text <$> ylabel top = Some (upper "low-res" +:+ LF +:+ LF) ∧
           text <$> ylabel mid = Some (upper "super-res" +:+ LF +:+ LF) ∧
           text <$> ylabel bot = Some (upper "high-res" +:+ LF +:+ LF)) ∧
        ((0 < idx)%nat → ylabel top = None ∧ ylabel mid = None ∧ ylabel bot = None).
Proof.
  exact (triplet_grid_layout 53 1024 log10_special format_special sample_visualizer
           sample_lr sample_sr sample_hr 4 4 4 2 2
           sample_lr_batch sample_sr_batch sample_hr_batch).
Defined.

(** C9 on nine and ten images that agree on the first eight. *)
Lemma visualize_generated_ct_first_8_witness :
  visualize_generated_ct 53 1024 log10_special format_special sample_visualizer
    sample_hr_9 sample_hr_9 sample_hr_9 0 =
  visualize_generated_ct 53 1024 log10_special format_special sample_visualizer
    sample_hr_10 sample_hr_10 sample_hr_10 0.
Proof.
  exact (visualize_generated_ct_first_8 53 1024 log10_special format_special
           sample_visualizer sample_hr_9 sample_hr_9 sample_hr_9
           sample_hr_10 sample_hr_10 sample_hr_10 0
           sample_hr_9_10_agree sample_hr_9_10_agree sample_hr_9_10_agree).
Defined.

(** C3 on a training series of a hundred values. *)
Lemma curves_x_ticks_witness :
  xticks (plot_loss format_special ylim_unit sample_visualizer new_axes (series 100) [])
    = Some (x_ticks (length (series 100))) ∧
  xticks (plot_psnr format_special ylim_unit sample_visualizer new_axes (series 100) [])
    = Some (x_ticks (length (series 100))) ∧
  length (x_ticks (length (series 100))) = 11%nat ∧
  x_ticks (length (series 100)) !! 0%nat = Some 0 ∧
  x_ticks (length (series 100)) !! 10%nat = Some (Z.of_nat (length (series 100))) ∧
  (∀ k, Z.of_nat (length (series 100)) = 10 * k →
        x_ticks (length (series 100)) = (λ i, Z.of_nat i * k) <$> seq 0 11 ∧
        spaced_by k (x_ticks (length (series 100)))) ∧
  (length (series 100) = 100%nat →
   x_ticks (length (series 100)) = [0; 10; 20; 30; 40; 50; 60; 70; 80; 90; 100]).
Proof.
  apply (curves_x_ticks format_special ylim_unit sample_visualizer new_axes (series 100) []).
  by vm_compute.
Defined.

(** The names of the files on the sample inputs: epoch 4 gives
    visualization_epoch_5.svg, epoch 0 gives performance_epoch_1.svg, and
    the name "scan" at epoch 7 gives test_results_scan_7.svg. *)
Example saved_file_names_sample :
  path <$> visualize_generated_ct 53 1024 log10_special format_special sample_visualizer
             sample_lr sample_sr sample_hr 4
    = Return "plots/visualization_epoch_5.svg" ∧
  path <$> visualize_performance format_special ylim_unit sample_visualizer
             {[ "p_loss" := series 3; "psnr" := series 3 ]}
             {[ "p_loss" := series 3; "psnr" := series 3 ]} 0
    = Return "plots/performance_epoch_1.svg" ∧
  path <$> visualize_full_slices format_special format_special sample_visualizer
             (image_at (array_of sample_lr) 0) (image_at (array_of sample_sr) 0)
             (image_at (array_of sample_hr) 0)
             {[ "mse" := F64.of_int 1; "psnr" := F64.of_int 20 ]} "scan" 7
    = Return "plots/test_results_scan_7.svg".
Proof. split_and!; by vm_compute. Qed.

(** *** Counterexamples *)

(** C2 as stated fails on a flat image: the pixels of [sample_flat] are 0
    and 2^-600, the range is 2^-600, its square underflows to 0, and with a
    mean squared error of 0 the quotient is 0/0, a NaN.  For any [np.log10]
    that maps a NaN to a NaN, the title is that NaN and not an infinity. *)
Lemma perfect_match_underflow :
  ¬ (∀ (log10 : float → float) (format_f : nat → float → string),
       log10 (S754_infinity false) = S754_infinity false →
       log10 S754_nan = S754_nan →
       ∃ out top,
         visualize_generated_ct 53 1024 log10 format_f sample_visualizer
           sample_flat sample_flat sample_flat 0 = Return out ∧
         get_axes (saved out) 0 0 = Some top ∧
         text <$> title top
           = Some ("PSNR = " +:+ format_f 2%nat (S754_infinity false) +:+ LF)).
Proof.
  intros Hclaim.
  destruct (Hclaim log10_special format_special eq_refl eq_refl)
    as (out & top & Hout & Htop & Htitle).
  vm_compute in Hout. injection Hout as <-.
  vm_compute in Htop. injection Htop as <-.
  vm_compute in Htitle. discriminate Htitle.
Qed.

(** C3 as stated fails for a series of five values: the ticks are
    0, 0, 1, 1, 2, 2, 3, 3, 4, 4, 5. *)
Lemma x_ticks_of_5_uneven :
  xticks (plot_loss format_special ylim_unit sample_visualizer new_axes (series 5) [])
    = Some [0; 0; 1; 1; 2; 2; 3; 3; 4; 4; 5] ∧
  ¬ evenly_spaced [0; 0; 1; 1; 2; 2; 3; 3; 4; 4; 5].
Proof.
  split; [by vm_compute|].
  intros [d Hd].
  pose proof (Hd 0%nat 0 0 eq_refl eq_refl) as H0.
  pose proof (Hd 1%nat 0 1 eq_refl eq_refl) as H1.
  lia.
Qed.

(** C4 as stated fails on the sample batches: the two figures differ in
    the spacing of the grid. *)
Lemma triplet_figures_differ :
  get_generated_ct_fig 53 1024 log10_special format_special sample_visualizer
    sample_lr sample_sr sample_hr ≠
  saved <$> visualize_generated_ct 53 1024 log10_special format_special
              sample_visualizer sample_lr sample_sr sample_hr 0.
Proof.
  intros Heq. apply (f_equal (fmap gridspec_kw)) in Heq.
  vm_compute in Heq. discriminate Heq.
Qed.

(** C5 as stated fails on a plain two-dimensional array. *)
Lemma plain_array_raises :
  visualize_generated_ct 53 1024 log10_special format_special sample_visualizer
    sample_grid sample_grid sample_grid 0 = Raise AttributeError ∧
  get_generated_ct_fig 53 1024 log10_special format_special sample_visualizer
    sample_grid sample_grid sample_grid = Raise AttributeError.
Proof. split; reflexivity. Qed.

(** C8 as stated fails on the title, which is in capitals. *)
Lemma plot_loss_title_capitals :
  text <$> title (plot_loss format_special ylim_unit sample_visualizer new_axes
                            (series 3) (series 3))
    ≠ Some "Perceptual Loss".
Proof. intros Heq. vm_compute in Heq. discriminate Heq. Qed.

(** ** More of the module

    What the methods do on any axes and on any input: the exceptions they
    raise and their order, the batches the triplet methods accept, the
    metric at its edges, the y-axis of the curves, and the files. *)

(** *** Single axes, the performance panel, the full slices *)

(** One step of a computation whose first action has returned. *)
Ltac py_next :=
  match goal with
  | |- context [mbind ?f (Return ?a)] => change (mbind f (Return a)) with (f a); cbv beta
  end.

(** Case analysis on the steps of a computation that has returned. *)
Ltac py_done H :=
  repeat match type of H with
         | mbind ?f ?m = Return _ =>
             let a := fresh "a" in
             destruct m as [a|];
             [change (mbind f (Return a)) with (f a) in H; cbv beta in H
             |discriminate H]
         end.


(** X2.  [no_spines_plot] and [no_ticks_plot] can be applied again and in
    either order without a difference, and a caller need not apply them:
    [visualize_ct] and [visualize_slice] give the same result on axes whose
    spines and ticks are already hidden and whose aspect is already set as
    on axes where they are not. *)
Theorem no_spines_no_ticks_compose format_f format_e self axis ct_image ct_title psnr
    ct_name scores_dict :
  no_spines_plot (no_spines_plot axis) = no_spines_plot axis ∧
  no_ticks_plot (no_ticks_plot axis) = no_ticks_plot axis ∧
  no_spines_plot (no_ticks_plot axis) = no_ticks_plot (no_spines_plot axis) ∧
  (let prepare := λ ax, set_aspect "equal" (no_ticks_plot (no_spines_plot ax)) in
   prepare (prepare axis) = prepare axis ∧
   visualize_ct format_f self (prepare axis) ct_image ct_title psnr =
     visualize_ct format_f self axis ct_image ct_title psnr ∧
   visualize_slice format_f format_e self (prepare axis) ct_image ct_name scores_dict =
     visualize_slice format_f format_e self axis ct_image ct_name scores_dict).
Proof. by destruct axis. Qed.

(** X3.  [visualize_performance] reads the keys "p_loss" and "psnr" of both
    dictionaries, and nothing else of them.  When one of the four entries
    is missing it raises [KeyError]; otherwise it returns, whatever the
    series are, with one row of two axes: the loss curves on the left and
    the PSNR curves on the right, each drawn on fresh axes. *)
Theorem visualize_performance_keys format_f get_ylim self train_dict val_dict epoch :
  visualize_performance format_f get_ylim self train_dict val_dict epoch =
  match train_dict !! "p_loss", val_dict !! "p_loss",
        train_dict !! "psnr", val_dict !! "psnr" with
  | Some train_loss, Some val_loss, Some train_psnr, Some val_psnr =>
      Return {| path := path_join (_plots_dir self)
                          ("performance_epoch_" +:+ format_d (epoch + 1) +:+ ".svg");
                saved := {| figsize := (18, 5);
                            gridspec_kw := [("wspace", 0.25)]%Q;
                            axes := [[plot_loss format_f get_ylim self new_axes
                                                train_loss val_loss;
                                      plot_psnr format_f get_ylim self new_axes
                                                train_psnr val_psnr]] |} |}
  | _, _, _, _ => Raise KeyError
  end.
Proof.
  unfold visualize_performance, dict_getitem.
  destruct (train_dict !! "p_loss") as [train_loss|]; [|done].
  destruct (val_dict !! "p_loss") as [val_loss|]; [|done].
  destruct (train_dict !! "psnr") as [train_psnr|];
    destruct (val_dict !! "psnr") as [val_psnr|]; reflexivity.
Qed.

Lemma string_app_assoc (s1 s2 s3 : string) : (s1 +:+ s2) +:+ s3 = s1 +:+ s2 +:+ s3.
Proof.
  induction s1 as [|c s1 IH]; [done|].
  change (String c ((s1 +:+ s2) +:+ s3) = String c (s1 +:+ s2 +:+ s3)).
  by rewrite IH.
Qed.

Lemma visualize_slice_fresh format_f format_e self ct_slice ct_name scores_dict :
  visualize_slice format_f format_e self new_axes ct_slice ct_name scores_dict =
  if image_shape_ok (shape ct_slice) then
    match scores_dict with
    | None => Return (shown_slice format_f format_e self ct_slice ct_name None)
    | Some d =>
        match d !! "mse", d !! "psnr" with
        | Some mse, Some psnr =>
            Return (shown_slice format_f format_e self ct_slice ct_name (Some (mse, psnr)))
        | _, _ => Raise KeyError
        end
    end
  else Raise TypeError.
Proof.
  unfold visualize_slice, imshow, dict_getitem. simpl.
  destruct (image_shape_ok (shape ct_slice)); [|done].
  destruct scores_dict as [d|]; [|done]. simpl.
  destruct (d !! "mse") as [mse|]; [|done]. simpl.
  destruct (d !! "psnr") as [psnr|]; [|done]. simpl.
  unfold shown_slice. simpl. by rewrite !string_app_assoc.
Qed.

(** X4.  [visualize_full_slices] takes the slices as they are (it neither
    squeezes nor converts them) and checks them from left to right: a
    low-resolution or super-resolution slice that is not an image raises
    [TypeError]; then a missing "mse" or "psnr" score raises [KeyError],
    even when the high-resolution slice is not an image; then the
    high-resolution slice is checked.  When all pass it returns one row of
    three axes, each with its slice and its name in capitals below, and
    the scores as the title of the middle axes only. *)
Theorem visualize_full_slices_cases format_f format_e self lr_slice sr_slice hr_slice
    scores_dict ct_name epoch :
  visualize_full_slices format_f format_e self lr_slice sr_slice hr_slice scores_dict
                        ct_name epoch =
  if negb (image_shape_ok (shape lr_slice)) then Raise TypeError
  else if negb (image_shape_ok (shape sr_slice)) then Raise TypeError
  else match scores_dict !! "mse", scores_dict !! "psnr" with
       | Some mse, Some psnr =>
           if negb (image_shape_ok (shape hr_slice)) then Raise TypeError
           else
             Return {| path := path_join (_plots_dir self)
                                 ("test_results_" +:+ ct_name +:+ "_" +:+
                                  format_d epoch +:+ ".svg");
                       saved :=
                         {| figsize := (20, 6);
                            gridspec_kw := [("wspace", 0.15)]%Q;
                            axes := [[shown_slice format_f format_e self lr_slice
                                                  "low-res" None;
                                      shown_slice format_f format_e self sr_slice
                                                  "super-res" (Some (mse, psnr));
                                      shown_slice format_f format_e self hr_slice
                                                  "high-res" None]] |} |}
       | _, _ => Raise KeyError
       end.
Proof.
  unfold visualize_full_slices, on_axes, subplots. simpl.
  rewrite visualize_slice_fresh.
  destruct (image_shape_ok (shape lr_slice)); [|done].
  repeat py_next. simpl. rewrite visualize_slice_fresh.
  destruct (image_shape_ok (shape sr_slice)); [|done]. simpl.
  destruct (scores_dict !! "mse") as [mse|]; [|done].
  destruct (scores_dict !! "psnr") as [psnr|]; [|done].
  repeat py_next. simpl. rewrite visualize_slice_fresh.
  by destruct (image_shape_ok (shape hr_slice)).
Qed.

(** *** The triplet methods on batches of any size *)

Lemma for_each_app {A S : Type} (xs ys : list A) (body : A → S → py S) s :
  for_each (xs ++ ys) body s = for_each xs body s ≫= for_each ys body.
Proof.
  revert s. induction xs as [|x xs IH]; intros s; simpl; [done|].
  destruct (body x s) as [s'|e]; simpl; [apply IH|done].
Qed.

Lemma insert_next {A : Type} (f : nat → A) (x : A) (k n : nat) :
  (k < n)%nat →
  <[k := f k]> ((f <$> seq 0 k) ++ replicate (n - k) x) =
  (f <$> seq 0 (S k)) ++ replicate (n - S k) x.
Proof.
  intros Hk. rewrite seq_S, fmap_app, <-app_assoc. simpl.
  rewrite insert_app_r_alt by (rewrite length_fmap, length_seq; lia).
  rewrite length_fmap, length_seq, Nat.sub_diag.
  replace (n - k)%nat with (S (n - S k)) by lia. done.
Qed.

Lemma lookup_next {A : Type} (f : nat → A) (x : A) (k n : nat) :
  (k < n)%nat → ((f <$> seq 0 k) ++ replicate (n - k) x) !! k = Some x.
Proof.
  intros Hk. rewrite lookup_app_r by (rewrite length_fmap, length_seq; lia).
  rewrite length_fmap, length_seq, Nat.sub_diag.
  replace (n - k)%nat with (S (n - S k)) by lia. done.
Qed.

Lemma getitem_out_of_bounds a idx n s :
  shape a = n :: s → (n ≤ idx)%nat → getitem a idx = Raise IndexError.
Proof.
  intros Hs Hidx. unfold getitem. rewrite Hs.
  by rewrite bool_decide_eq_false_2 by lia.
Qed.

Section Batches.
Variables prec emax : Z.
Variable log10 : float → float.
Variable format_f : nat → float → string.
Variable self : Visualizer.
Variables lr sr hr : ndarray.
Variables nl ns nh h w h' w' : nat.
Hypothesis Hlr : is_batch nl h' w' (Tensor lr).
Hypothesis Hsr : is_batch ns h w (Tensor sr).
Hypothesis Hhr : is_batch nh h w (Tensor hr).

Lemma triplet_column_drawn sz kw idx r0 r1 r2 :
  (idx < nl)%nat → (idx < ns)%nat → (idx < nh)%nat →
  r0 !! idx = Some new_axes → r1 !! idx = Some new_axes → r2 !! idx = Some new_axes →
  triplet_column prec emax log10 format_f self (squeeze lr) (squeeze sr) (squeeze hr) idx
    {| figsize := sz; gridspec_kw := kw; axes := [r0; r1; r2] |} =
  Return {| figsize := sz; gridspec_kw := kw;
            axes := [ <[idx := shown format_f self (image_at lr idx)
                                 (row_label idx "low-res")
                                 (Some (column_psnr prec emax log10 sr hr idx))]> r0;
                      <[idx := shown format_f self (image_at sr idx)
                                 (row_label idx "super-res") None]> r1;
                      <[idx := shown format_f self (image_at hr idx)
                                 (row_label idx "high-res") None]> r2 ] |}.
Proof using Hlr Hsr Hhr.
  intros Hil His Hih H0 H1 H2.
  destruct (batch_image _ _ _ _ _ Hlr Hil) as (Hget_lr & _ & Hs_lr & _).
  destruct (batch_image _ _ _ _ _ Hsr His) as (Hget_sr & Hwf_sr & Hs_sr & _).
  destruct (batch_image _ _ _ _ _ Hhr Hih) as (Hget_hr & Hwf_hr & Hs_hr & _).
  apply triplet_column_ok; try done.
  - by apply (batch_column_psnr prec emax log10 nh h w).
  - by rewrite Hs_sr, Hs_hr.
  - by rewrite Hs_lr.
  - by rewrite Hs_sr.
Qed.

Lemma triplet_column_missing idx fig :
  (nl ≤ idx ∨ ns ≤ idx ∨ nh ≤ idx)%nat →
  triplet_column prec emax log10 format_f self (squeeze lr) (squeeze sr) (squeeze hr) idx fig
  = Raise IndexError.
Proof using Hlr Hsr Hhr.
  intros Hidx. unfold triplet_column.
  destruct (decide (nh ≤ idx)%nat) as [Hh|Hh].
  { rewrite (getitem_out_of_bounds (squeeze hr) idx nh [h; w]); [|apply Hhr|done].
    by destruct (bool_decide _). }
  destruct (batch_image _ _ _ _ _ Hhr (proj1 (Nat.nle_gt _ _) Hh))
    as (Hget_hr & Hwf_hr & Hs_hr & Hlen).
  destruct (reduce_is_Some maximum _ Hlen) as [hi Hhi].
  destruct (reduce_is_Some minimum _ Hlen) as [lo Hlo].
  rewrite Hget_hr.
  destruct (decide (ns ≤ idx)%nat) as [Hs|Hs].
  { rewrite (getitem_out_of_bounds (squeeze sr) idx ns [h; w]); [|apply Hsr|done].
    destruct (bool_decide _); repeat py_next;
      rewrite (amax_reduce _ _ Hhi), (amin_reduce _ _ Hlo); by repeat py_next. }
  destruct (batch_image _ _ _ _ _ Hsr (proj1 (Nat.nle_gt _ _) Hs))
    as (Hget_sr & Hwf_sr & Hs_sr & _).
  rewrite Hget_sr.
  rewrite (getitem_out_of_bounds (squeeze lr) idx nl [h'; w']); [|apply Hlr|lia].
  destruct (bool_decide _); repeat py_next;
    rewrite (amax_reduce _ _ Hhi), (amin_reduce _ _ Hlo); repeat py_next;
    (rewrite subtract_same_shape by (try done; by rewrite Hs_sr, Hs_hr));
    by repeat py_next.
Qed.

Lemma triplet_columns_drawn sz kw k :
  (k ≤ 8)%nat → (k ≤ nl)%nat → (k ≤ ns)%nat → (k ≤ nh)%nat →
  for_each (seq 0 k)
    (triplet_column prec emax log10 format_f self (squeeze lr) (squeeze sr) (squeeze hr))
    (subplots 3 8 sz kw) =
  Return {| figsize := sz; gridspec_kw := kw;
            axes := triplet_axes_upto prec emax log10 format_f self lr sr hr k |}.
Proof using Hlr Hsr Hhr.
  induction k as [|k IH]; intros H8 Hl Hs Hh; [done|].
  rewrite seq_S, for_each_app, IH by lia. py_next. simpl.
  unfold triplet_axes_upto.
  rewrite triplet_column_drawn by (try lia; by apply lookup_next).
  rewrite (insert_next (λ idx, shown format_f self (image_at lr idx)
                                 (row_label idx "low-res")
                                 (Some (column_psnr prec emax log10 sr hr idx)))) by lia.
  rewrite (insert_next (λ idx, shown format_f self (image_at sr idx)
                                 (row_label idx "super-res") None)) by lia.
  by rewrite (insert_next (λ idx, shown format_f self (image_at hr idx)
                                    (row_label idx "high-res") None)) by lia.
Qed.

Lemma triplet_loop_drawn sz kw :
  (8 ≤ nl)%nat → (8 ≤ ns)%nat → (8 ≤ nh)%nat →
  for_each (range 8)
    (triplet_column prec emax log10 format_f self (squeeze lr) (squeeze sr) (squeeze hr))
    (subplots 3 8 sz kw) =
  Return {| figsize := sz; gridspec_kw := kw;
            axes := triplet_axes prec emax log10 format_f self lr sr hr |}.
Proof using Hlr Hsr Hhr.
  intros Hl Hs Hh. unfold range. rewrite triplet_columns_drawn by lia.
  unfold triplet_axes_upto, triplet_axes, range. simpl replicate. by rewrite !app_nil_r.
Qed.

Lemma triplet_loop_missing sz kw :
  (nl < 8 ∨ ns < 8 ∨ nh < 8)%nat →
  for_each (range 8)
    (triplet_column prec emax log10 format_f self (squeeze lr) (squeeze sr) (squeeze hr))
    (subplots 3 8 sz kw) = Raise IndexError.
Proof using Hlr Hsr Hhr.
  intros Hshort. set (m := (nl `min` (ns `min` nh))%nat).
  assert (m < 8)%nat as Hm by lia.
  unfold range. replace 8%nat with (m + S (7 - m))%nat at 1 by lia.
  rewrite seq_app, for_each_app, triplet_columns_drawn by lia.
  py_next. simpl. rewrite triplet_column_missing by lia. done.
Qed.
End Batches.

(** X5.  The triplet methods draw the first eight images of each batch and
    nothing else: on batches of eight images or more both return the grid
    of the images 0 to 7, whatever the number of images of each batch; as
    soon as one batch has fewer than eight images both raise [IndexError],
    and [visualize_generated_ct] writes no file. *)
Theorem triplet_methods_batch_size prec emax log10 format_f self lr_ct sr_ct hr_ct epoch
    nl ns nh h w h' w' :
  is_batch nl h' w' lr_ct → is_batch ns h w sr_ct → is_batch nh h w hr_ct →
  ((8 ≤ nl ∧ 8 ≤ ns ∧ 8 ≤ nh)%nat →
     visualize_generated_ct prec emax log10 format_f self lr_ct sr_ct hr_ct epoch =
       Return {| path := path_join (_plots_dir self)
                           ("visualization_epoch_" +:+ format_d (epoch + 1) +:+ ".svg");
                 saved := {| figsize := (20, 6);
                             gridspec_kw := [("hspace", 0.05); ("wspace", 0.25)]%Q;
                             axes := triplet_axes prec emax log10 format_f self
                                       (array_of lr_ct) (array_of sr_ct)
                                       (array_of hr_ct) |} |} ∧
     get_generated_ct_fig prec emax log10 format_f self lr_ct sr_ct hr_ct =
       Return {| figsize := (20, 6);
                 gridspec_kw := [("hspace", 0.05); ("wspace", 0.15)]%Q;
                 axes := triplet_axes prec emax log10 format_f self
                           (array_of lr_ct) (array_of sr_ct) (array_of hr_ct) |}) ∧
  ((nl < 8 ∨ ns < 8 ∨ nh < 8)%nat →
     visualize_generated_ct prec emax log10 format_f self lr_ct sr_ct hr_ct epoch =
       Raise IndexError ∧
     get_generated_ct_fig prec emax log10 format_f self lr_ct sr_ct hr_ct =
       Raise IndexError).
Proof.
  intros Hlr Hsr Hhr.
  rewrite visualize_generated_ct_unfold, get_generated_ct_fig_unfold.
  destruct lr_ct as [lr|], sr_ct as [sr|], hr_ct as [hr|]; try done.
  rewrite !to_numpy_tensor. repeat py_next. split.
  - intros (Hl & Hs & Hh).
    by rewrite !(triplet_loop_drawn _ _ _ _ _ _ _ _ _ _ _ _ _ _ _ Hlr Hsr Hhr) by done.
  - intros Hshort.
    by rewrite !(triplet_loop_missing _ _ _ _ _ _ _ _ _ _ _ _ _ _ _ Hlr Hsr Hhr) by done.
Qed.

(** *** Batches the triplet methods refuse *)

Lemma sample_hr_3_batch : is_batch 3 4 4 sample_hr_3.
Proof. split_and!; [by vm_compute|done|lia..]. Qed.

(** X5 on a high-resolution batch of three images. *)
Lemma triplet_methods_batch_size_witness :
  visualize_generated_ct 53 1024 log10_special format_special sample_visualizer
    sample_lr sample_sr sample_hr_3 0 = Raise IndexError ∧
  get_generated_ct_fig 53 1024 log10_special format_special sample_visualizer
    sample_lr sample_sr sample_hr_3 = Raise IndexError.
Proof.
  apply (triplet_methods_batch_size 53 1024 log10_special format_special sample_visualizer
           sample_lr sample_sr sample_hr_3 0 8 8 3 4 4 2 2
           sample_lr_batch sample_sr_batch sample_hr_3_batch).
  lia.
Defined.

Section Refused.
Variables prec emax : Z.
Variable log10 : float → float.
Variable format_f : nat → float → string.
Variable self : Visualizer.

(** Both methods stop at the first column that raises. *)
Lemma triplet_methods_raise lr sr hr epoch e :
  (∀ sz kw,
     triplet_column prec emax log10 format_f self (squeeze lr) (squeeze sr) (squeeze hr)
       0 (subplots 3 8 sz kw) = Raise e) →
  visualize_generated_ct prec emax log10 format_f self (Tensor lr) (Tensor sr) (Tensor hr)
    epoch = Raise e ∧
  get_generated_ct_fig prec emax log10 format_f self (Tensor lr) (Tensor sr) (Tensor hr)
    = Raise e.
Proof.
  intros Hcol.
  rewrite visualize_generated_ct_unfold, get_generated_ct_fig_unfold.
  rewrite !to_numpy_tensor. repeat py_next.
  change (range 8) with (0%nat :: seq 1 7). by rewrite !for_each_cons, !Hcol.
Qed.

Lemma on_axes_raise r c f fig ax e :
  get_axes fig r c = Some ax → f ax = Raise e → on_axes r c f fig = Raise e.
Proof.
  unfold get_axes, on_axes. intros Hax Hf.
  destruct (axes fig !! r) as [row|]; [|done]. simpl in Hax. by rewrite Hax, Hf.
Qed.

Lemma visualize_ct_refused axis ct_image ct_title psnr :
  image_shape_ok (shape ct_image) = false →
  visualize_ct format_f self axis ct_image ct_title psnr = Raise TypeError.
Proof. intros Hs. unfold visualize_ct, imshow. by rewrite Hs. Qed.

Lemma squeeze_no_ones a d : d ∈ shape (squeeze a) → d ≠ 1%nat.
Proof. unfold squeeze. simpl. by intros [? _]%list_elem_of_filter. Qed.

Lemma broadcast_shapes_mismatch h w h2 w2 :
  h ≠ 1%nat → w ≠ 1%nat → h2 ≠ 1%nat → w2 ≠ 1%nat → (h, w) ≠ (h2, w2) →
  broadcast_shapes [h; w] [h2; w2] = None.
Proof.
  intros Hh Hw Hh2 Hw2 Hne. unfold broadcast_shapes. cbn.
  repeat case_bool_decide; simplify_eq; done.
Qed.

(** X6.  A batch of a single image is not drawn.  Squeezed, it is the image
    itself, so the loop indexes its rows: the metric is computed on the
    first rows of the two images, and [imshow] then refuses the first row
    of the low-resolution image.  Both methods raise [TypeError]. *)
Theorem triplet_methods_single_image lr_ct sr_ct hr_ct epoch h w h' w' :
  is_image h' w' lr_ct → is_image h w sr_ct → is_image h w hr_ct →
  visualize_generated_ct prec emax log10 format_f self lr_ct sr_ct hr_ct epoch
    = Raise TypeError ∧
  get_generated_ct_fig prec emax log10 format_f self lr_ct sr_ct hr_ct = Raise TypeError.
Proof.
  destruct lr_ct as [lr|], sr_ct as [sr|], hr_ct as [hr|]; try done.
  intros (Hwf_lr & Hs_lr & Hh' & Hw') (Hwf_sr & Hs_sr & Hh & Hw) (Hwf_hr & Hs_hr & _ & _).
  apply triplet_methods_raise. intros sz kw.
  pose proof (getitem_image_at lr 0 h' [w'] Hs_lr Hh') as Hget_lr.
  pose proof (getitem_image_at sr 0 h [w] Hs_sr Hh) as Hget_sr.
  pose proof (getitem_image_at hr 0 h [w] Hs_hr Hh) as Hget_hr.
  pose proof (image_at_wf sr 0 h [w] Hwf_sr Hs_sr Hh) as Hwf_sr0.
  pose proof (image_at_wf hr 0 h [w] Hwf_hr Hs_hr Hh) as Hwf_hr0.
  pose proof (image_at_shape sr 0 h [w] Hs_sr) as Hs_sr0.
  pose proof (image_at_shape hr 0 h [w] Hs_hr) as Hs_hr0.
  pose proof (image_at_shape lr 0 h' [w'] Hs_lr) as Hs_lr0.
  assert (0 < length (data (image_at hr 0)))%nat as Hlen.
  { rewrite (image_at_length hr 0 h [w]) by done. simpl. lia. }
  destruct (reduce_is_Some maximum _ Hlen) as [hi Hhi].
  destruct (reduce_is_Some minimum _ Hlen) as [lo Hlo].
  unfold triplet_column. rewrite Hget_lr, Hget_sr, Hget_hr. simpl bool_decide. cbv iota.
  repeat py_next. rewrite (amax_reduce _ _ Hhi), (amin_reduce _ _ Hlo). repeat py_next.
  rewrite subtract_same_shape by (try done; by rewrite Hs_sr0, Hs_hr0). repeat py_next.
  rewrite (on_axes_raise 0 0 _ _ new_axes TypeError); [done|done|].
  apply visualize_ct_refused. by rewrite Hs_lr0.
Qed.

(** X7.  When the super-resolution and the high-resolution images differ
    in size, the subtraction of the first pair cannot broadcast them (a
    squeezed batch has no axis of length one): both methods raise
    [ValueError] before anything is drawn, whatever the low-resolution
    tensor holds. *)
Theorem triplet_methods_size_mismatch lr_ct sr_ct hr_ct epoch ns nh h w h2 w2 :
  is_array lr_ct = false →
  is_batch ns h w sr_ct → is_batch nh h2 w2 hr_ct →
  (0 < ns)%nat → (0 < nh)%nat → (h, w) ≠ (h2, w2) →
  visualize_generated_ct prec emax log10 format_f self lr_ct sr_ct hr_ct epoch
    = Raise ValueError ∧
  get_generated_ct_fig prec emax log10 format_f self lr_ct sr_ct hr_ct = Raise ValueError.
Proof.
  destruct lr_ct as [lr|], sr_ct as [sr|], hr_ct as [hr|]; try done.
  intros _ Hsr Hhr Hns Hnh Hne.
  apply triplet_methods_raise. intros sz kw.
  destruct (batch_image _ _ _ _ _ Hsr Hns) as (Hget_sr & _ & Hs_sr & _).
  destruct (batch_image _ _ _ _ _ Hhr Hnh) as (Hget_hr & _ & Hs_hr & Hlen).
  destruct (reduce_is_Some maximum _ Hlen) as [hi Hhi].
  destruct (reduce_is_Some minimum _ Hlen) as [lo Hlo].
  destruct Hsr as (_ & Hshape_sr & _), Hhr as (_ & Hshape_hr & _).
  assert (h ≠ 1%nat) as Hh1 by (apply (squeeze_no_ones sr); rewrite Hshape_sr; set_solver).
  assert (w ≠ 1%nat) as Hw1 by (apply (squeeze_no_ones sr); rewrite Hshape_sr; set_solver).
  assert (h2 ≠ 1%nat) as Hh2 by (apply (squeeze_no_ones hr); rewrite Hshape_hr; set_solver).
  assert (w2 ≠ 1%nat) as Hw2 by (apply (squeeze_no_ones hr); rewrite Hshape_hr; set_solver).
  unfold triplet_column. rewrite Hget_sr, Hget_hr. simpl bool_decide. cbv iota.
  repeat py_next. rewrite (amax_reduce _ _ Hhi), (amin_reduce _ _ Hlo). repeat py_next.
  unfold subtract. rewrite Hs_sr, Hs_hr.
  by rewrite broadcast_shapes_mismatch.
Qed.

(** X8.  The loop looks at the high-resolution batch first.  When it
    squeezes to a scalar (one image of one pixel) or has no image, indexing
    it raises [IndexError]; when its images have no pixel, their maximum
    raises [ValueError].  In each case nothing is drawn, and the other two
    tensors are not looked at. *)
Theorem triplet_methods_degenerate_hr lr_ct sr_ct hr epoch :
  is_array lr_ct = false → is_array sr_ct = false →
  (shape (squeeze hr) = [] ∨ (∃ s, shape (squeeze hr) = 0%nat :: s) →
     visualize_generated_ct prec emax log10 format_f self lr_ct sr_ct (Tensor hr) epoch
       = Raise IndexError ∧
     get_generated_ct_fig prec emax log10 format_f self lr_ct sr_ct (Tensor hr)
       = Raise IndexError) ∧
  (∀ n s, shape (squeeze hr) = S n :: s → size_of s = 0%nat →
     visualize_generated_ct prec emax log10 format_f self lr_ct sr_ct (Tensor hr) epoch
       = Raise ValueError ∧
     get_generated_ct_fig prec emax log10 format_f self lr_ct sr_ct (Tensor hr)
       = Raise ValueError).
Proof.
  destruct lr_ct as [lr|], sr_ct as [sr|]; try done. intros _ _. split.
  - intros Hs. apply triplet_methods_raise. intros sz kw.
    assert (getitem (squeeze hr) 0 = Raise IndexError) as Hget.
    { destruct Hs as [Hs|[s Hs]]; [|by apply (getitem_out_of_bounds _ _ 0 s)].
      unfold getitem. by rewrite Hs. }
    unfold triplet_column. by rewrite Hget.
  - intros n s Hs Hsize. apply triplet_methods_raise. intros sz kw.
    assert (getitem (squeeze hr) 0 ≫= amax = Raise ValueError) as Hget.
    { unfold getitem. rewrite Hs. simpl. unfold amax. simpl. by rewrite Hsize. }
    unfold triplet_column. by rewrite Hget.
Qed.
End Refused.

Lemma sample_single_image : is_image 4 4 sample_single.
Proof. split_and!; [by vm_compute|done|lia..]. Qed.

Lemma sample_hr_small_batch : is_batch 8 2 2 sample_hr_small.
Proof. split_and!; [by vm_compute|done|lia..]. Qed.

(** X6 on a tensor of shape (1, 1, 4, 4). *)
Lemma triplet_methods_single_image_witness :
  visualize_generated_ct 53 1024 log10_special format_special sample_visualizer
    sample_single sample_single sample_single 0 = Raise TypeError ∧
  get_generated_ct_fig 53 1024 log10_special format_special sample_visualizer
    sample_single sample_single sample_single = Raise TypeError.
Proof.
  apply (triplet_methods_single_image 53 1024 log10_special format_special
           sample_visualizer sample_single sample_single sample_single 0 4 4 4 4
           sample_single_image sample_single_image sample_single_image).
Defined.

(** X7 on super-resolution images of 4 by 4 pixels and high-resolution
    images of 2 by 2 pixels. *)
Lemma triplet_methods_size_mismatch_witness :
  visualize_generated_ct 53 1024 log10_special format_special sample_visualizer
    sample_lr sample_sr sample_hr_small 0 = Raise ValueError ∧
  get_generated_ct_fig 53 1024 log10_special format_special sample_visualizer
    sample_lr sample_sr sample_hr_small = Raise ValueError.
Proof.
  apply (triplet_methods_size_mismatch 53 1024 log10_special format_special
           sample_visualizer sample_lr sample_sr sample_hr_small 0 8 8 4 4 2 2).
  - done.
  - exact sample_sr_batch.
  - exact sample_hr_small_batch.
  - lia.
  - lia.
  - by intros [=].
Defined.

(** X8 on a tensor of one element, and on eight images without pixels. *)
Lemma triplet_methods_degenerate_hr_witness :
  visualize_generated_ct 53 1024 log10_special format_special sample_visualizer
    sample_lr sample_sr sample_scalar 0 = Raise IndexError ∧
  visualize_generated_ct 53 1024 log10_special format_special sample_visualizer
    sample_lr sample_sr sample_hr_empty 0 = Raise ValueError.
Proof.
  split.
  - apply (triplet_methods_degenerate_hr 53 1024 log10_special format_special
             sample_visualizer sample_lr sample_sr
             {| shape := [1; 1; 1; 1]%nat; data := [F64.of_int 1] |} 0); [done..|].
    by left.
  - apply (proj2 (triplet_methods_degenerate_hr 53 1024 log10_special format_special
             sample_visualizer sample_lr sample_sr (batch_array 8 0 4 (λ _, [])) 0
             eq_refl eq_refl) 7%nat [0; 4]%nat); done.
Defined.

(** *** The metric at its edges *)

Section Edges.
Variables prec emax : Z.
Variable log10 : float → float.
Variable format_f : nat → float → string.

Lemma foldl_nan (f : float → float → float) x xs :
  (∀ y, f S754_nan y = S754_nan) → (∀ y, f y S754_nan = S754_nan) →
  S754_nan ∈ x :: xs → foldl f x xs = S754_nan.
Proof.
  intros Hl Hr. revert x. induction xs as [|y xs IH]; intros x Hin; simpl.
  - by apply list_elem_of_singleton in Hin.
  - apply IH. apply elem_of_cons in Hin as [<-|Hin]; [rewrite Hl; by left|].
    apply elem_of_cons in Hin as [<-|Hin]; [rewrite Hr; by left|by right].
Qed.

Lemma fmean_nan l : S754_nan ∈ l → fmean prec emax l = S754_nan.
Proof.
  intros Hin. unfold fmean, fsum. destruct l as [|x xs]; [by apply elem_of_nil in Hin|].
  simpl. rewrite foldl_nan; [done| |by intros []|done].
  by intros [].
Qed.

Lemma squared_error_nan l l' :
  length l = length l' → S754_nan ∈ l ∨ S754_nan ∈ l' →
  S754_nan ∈ zip_with (squared_error prec emax) l l'.
Proof.
  intros Hlen Hin.
  assert (∃ i x y, l !! i = Some x ∧ l' !! i = Some y ∧ (x = S754_nan ∨ y = S754_nan))
    as (i & x & y & Hx & Hy & Hnan).
  { destruct Hin as [Hin|Hin]; apply list_elem_of_lookup in Hin as [i Hi].
    - destruct (lookup_lt_is_Some_2 l' i) as [y Hy];
        [rewrite <-Hlen; by eapply lookup_lt_Some|]. eauto 10.
    - destruct (lookup_lt_is_Some_2 l i) as [x Hx];
        [rewrite Hlen; by eapply lookup_lt_Some|]. eauto 10. }
  apply list_elem_of_lookup. exists i. rewrite lookup_zip_with, Hx. simpl. rewrite Hy. simpl.
  f_equal. unfold squared_error, square.
  destruct Hnan as [->| ->]; [done|by destruct x].
Qed.

Lemma psnr_of_nan hr_range :
  log10 S754_nan = S754_nan → psnr_of prec emax log10 hr_range S754_nan = S754_nan.
Proof.
  intros Hlog. unfold psnr_of.
  replace (SFdiv prec emax (square prec emax hr_range) S754_nan) with S754_nan
    by by destruct (square prec emax hr_range).
  rewrite Hlog. by destruct (of_int prec emax 10).
Qed.

(** X9.  A pixel that is not a number, in the super-resolution or in the
    high-resolution image of a column, makes the mean squared error and
    the PSNR of that column NaN: the figure is still drawn, and the title
    of the column shows that NaN.  [np.log10] is taken to map NaN to NaN. *)
Theorem psnr_of_nan_pixel self lr_ct sr_ct hr_ct epoch h w h' w' idx :
  log10 S754_nan = S754_nan →
  is_batch 8 h' w' lr_ct → is_batch 8 h w sr_ct → is_batch 8 h w hr_ct →
  (idx < 8)%nat →
  S754_nan ∈ data (image_at (array_of sr_ct) idx) ∨
  S754_nan ∈ data (image_at (array_of hr_ct) idx) →
  column_psnr prec emax log10 (array_of sr_ct) (array_of hr_ct) idx = S754_nan ∧
  ∃ out top,
    visualize_generated_ct prec emax log10 format_f self lr_ct sr_ct hr_ct epoch
      = Return out ∧
    get_axes (saved out) 0 idx = Some top ∧
    text <$> title top = Some ("PSNR = " +:+ format_f 2%nat S754_nan +:+ LF).
Proof.
  intros Hlog Hlr Hsr Hhr Hidx Hnan.
  assert (column_psnr prec emax log10 (array_of sr_ct) (array_of hr_ct) idx = S754_nan)
    as Hpsnr.
  { destruct sr_ct as [sr|], hr_ct as [hr|]; try done. cbn [array_of] in *.
    destruct (batch_image _ _ _ _ _ Hsr Hidx) as (_ & Hwf_sr & Hs_sr & _).
    destruct (batch_image _ _ _ _ _ Hhr Hidx) as (_ & Hwf_hr & Hs_hr & Hlen).
    destruct (reduce_is_Some maximum _ Hlen) as [hi Hhi].
    destruct (reduce_is_Some minimum _ Hlen) as [lo Hlo].
    unfold column_psnr. rewrite (spec_psnr_psnr_of prec emax log10 _ _ hi lo) by done.
    cbn [default]. rewrite fmean_nan; [by apply psnr_of_nan|].
    apply squared_error_nan; [|done].
    unfold wf_array in Hwf_sr, Hwf_hr. by rewrite Hwf_sr, Hwf_hr, Hs_sr, Hs_hr. }
  split; [done|]. do 2 eexists. split_and!.
  - by eapply visualize_generated_ct_ok.
  - by apply triplet_axes_lookup.
  - simpl. by rewrite Hpsnr.
Qed.

(** X10.  The other half of the perfect match (C2 has the half where the
    PSNR is infinite): when the super-resolution image of a column is the
    high-resolution image, its pixels are finite, and the square of the
    range of the high-resolution image is zero in the float format (the
    image is constant, or so flat that the square underflows), the metric
    is 0/0: the PSNR is NaN, and the title of the column shows it.
    [np.log10] is taken to map NaN to NaN. *)
Theorem psnr_of_flat_perfect_match self lr_ct sr_ct hr_ct epoch h w h' w' idx hi lo :
  0 < prec → emin prec emax ≤ 0 →
  log10 S754_nan = S754_nan →
  is_batch 8 h' w' lr_ct → is_batch 8 h w sr_ct → is_batch 8 h w hr_ct →
  (idx < 8)%nat →
  image_at (array_of sr_ct) idx = image_at (array_of hr_ct) idx →
  Forall (λ x, is_finite x = true) (data (image_at (array_of hr_ct) idx)) →
  reduce maximum (data (image_at (array_of hr_ct) idx)) = Some hi →
  reduce minimum (data (image_at (array_of hr_ct) idx)) = Some lo →
  ¬ nonzero (square prec emax (SFsub prec emax hi lo)) →
  column_psnr prec emax log10 (array_of sr_ct) (array_of hr_ct) idx = S754_nan ∧
  ∃ out top,
    visualize_generated_ct prec emax log10 format_f self lr_ct sr_ct hr_ct epoch
      = Return out ∧
    get_axes (saved out) 0 idx = Some top ∧
    text <$> title top = Some ("PSNR = " +:+ format_f 2%nat S754_nan +:+ LF).
Proof.
  intros Hprec Hemin Hlog Hlr Hsr Hhr Hidx Hsame Hfin Hhi Hlo Hz.
  assert (column_psnr prec emax log10 (array_of sr_ct) (array_of hr_ct) idx = S754_nan)
    as Hpsnr.
  { unfold column_psnr. rewrite Hsame.
    assert (0 < length (data (image_at (array_of hr_ct) idx)))%nat as Hlen.
    { destruct (data _); [done|simpl; lia]. }
    assert (is_finite hi = true) as Hfhi.
    { eapply (proj1 (Forall_forall _ _) Hfin), reduce_elem_of, Hhi. apply maximum_cases. }
    assert (is_finite lo = true) as Hflo.
    { eapply (proj1 (Forall_forall _ _) Hfin), reduce_elem_of, Hlo. apply minimum_cases. }
    rewrite (spec_psnr_psnr_of prec emax log10 _ _ hi lo) by done. simpl.
    rewrite zip_with_squared_error_diag, fmean_zeros by done.
    unfold psnr_of.
    destruct (SFsub_sign prec emax hi lo Hfhi Hflo) as [s Hs].
    pose proof (square_sign prec emax s _ Hs) as Hsq.
    destruct (square prec emax (SFsub prec emax hi lo)) as [[]|[]| |[]]; try done;
      try (by destruct Hz).
    change (SFdiv prec emax (S754_zero false) (S754_zero false)) with S754_nan.
    rewrite Hlog. by destruct (of_int prec emax 10). }
  split; [done|]. do 2 eexists. split_and!.
  - by eapply visualize_generated_ct_ok.
  - by apply triplet_axes_lookup.
  - simpl. by rewrite Hpsnr.
Qed.
(** X14.  A constant high-resolution image has range zero.  When the
    super-resolution image differs from it, so that the mean squared error
    is positive, the quotient is a positive zero and the PSNR is minus
    infinity, shown as such in the title.  [np.log10] is taken to map the
    positive zero to minus infinity. *)
Theorem psnr_of_constant_hr self lr_ct sr_ct hr_ct epoch h w h' w' idx c :
  0 < prec → emin prec emax ≤ 0 →
  log10 (S754_zero false) = S754_infinity true →
  is_batch 8 h' w' lr_ct → is_batch 8 h w sr_ct → is_batch 8 h w hr_ct →
  (idx < 8)%nat →
  is_finite c = true →
  Forall (λ x, x = c) (data (image_at (array_of hr_ct) idx)) →
  (let mse := fmean prec emax (zip_with (squared_error prec emax)
                                 (data (image_at (array_of sr_ct) idx))
                                 (data (image_at (array_of hr_ct) idx))) in
   has_sign false mse ∧ nonzero mse) →
  column_psnr prec emax log10 (array_of sr_ct) (array_of hr_ct) idx = S754_infinity true ∧
  ∃ out top,
    visualize_generated_ct prec emax log10 format_f self lr_ct sr_ct hr_ct epoch
      = Return out ∧
    get_axes (saved out) 0 idx = Some top ∧
    text <$> title top = Some ("PSNR = " +:+ format_f 2%nat (S754_infinity true) +:+ LF).
Proof.
  intros Hprec Hemin Hlog Hlr Hsr Hhr Hidx Hc Hconst [Hsign Hnz].
  assert (column_psnr prec emax log10 (array_of sr_ct) (array_of hr_ct) idx
          = S754_infinity true) as Hpsnr.
  { destruct hr_ct as [hr|]; [|done]. cbn [array_of] in *.
    destruct (batch_image _ _ _ _ _ Hhr Hidx) as (_ & _ & _ & Hlen).
    destruct (reduce_is_Some maximum _ Hlen) as [hi Hhi].
    destruct (reduce_is_Some minimum _ Hlen) as [lo Hlo].
    assert (hi = c) as ->.
    { eapply (proj1 (Forall_forall _ _) Hconst), reduce_elem_of, Hhi. apply maximum_cases. }
    assert (lo = c) as ->.
    { eapply (proj1 (Forall_forall _ _) Hconst), reduce_elem_of, Hlo. apply minimum_cases. }
    unfold column_psnr. rewrite (spec_psnr_psnr_of prec emax log10 _ _ c c) by done.
    cbn [default]. unfold psnr_of. rewrite SFsub_diag by done.
    change (square prec emax (S754_zero false)) with (S754_zero false).
    replace (SFdiv prec emax (S754_zero false) _) with (S754_zero false)
      by by destruct (fmean _ _ _) as [|[]| |[]].
    rewrite Hlog. destruct (of_int_pos prec emax 10 Hprec Hemin) as [Hs10 Hz10].
    by destruct (of_int prec emax 10) as [|[]| |[]]. }
  split; [done|]. do 2 eexists. split_and!.
  - by eapply visualize_generated_ct_ok.
  - by apply triplet_axes_lookup.
  - simpl. by rewrite Hpsnr.
Qed.
End Edges.

Lemma sample_nan_batch : is_batch 8 4 4 sample_nan.
Proof. split_and!; [by vm_compute|done|lia..]. Qed.

Lemma sample_const_batch : is_batch 8 4 4 sample_const.
Proof. split_and!; [by vm_compute|done|lia..]. Qed.

(** X9 on a high-resolution batch with a NaN pixel. *)
Lemma psnr_of_nan_pixel_witness :
  column_psnr 53 1024 log10_special (array_of sample_sr) (array_of sample_nan) 0
    = S754_nan ∧
  ∃ out top,
    visualize_generated_ct 53 1024 log10_special format_special sample_visualizer
      sample_lr sample_sr sample_nan 0 = Return out ∧
    get_axes (saved out) 0 0 = Some top ∧
    text <$> title top = Some ("PSNR = " +:+ format_special 2 S754_nan +:+ LF).
Proof.
  apply (psnr_of_nan_pixel 53 1024 log10_special format_special sample_visualizer
           sample_lr sample_sr sample_nan 0 4 4 2 2 0).
  - done.
  - exact sample_lr_batch.
  - exact sample_sr_batch.
  - exact sample_nan_batch.
  - lia.
  - right. vm_compute. by left.
Defined.

(** X10 on the flat image whose pixels are 0 and 2^-600. *)
Lemma psnr_of_flat_perfect_match_witness :
  column_psnr 53 1024 log10_special (array_of sample_flat) (array_of sample_flat) 0
    = S754_nan ∧
  ∃ out top,
    visualize_generated_ct 53 1024 log10_special format_special sample_visualizer
      sample_lr sample_flat sample_flat 0 = Return out ∧
    get_axes (saved out) 0 0 = Some top ∧
    text <$> title top = Some ("PSNR = " +:+ format_special 2 S754_nan +:+ LF).
Proof.
  apply (psnr_of_flat_perfect_match 53 1024 log10_special format_special sample_visualizer
           sample_lr sample_flat sample_flat 0 2 2 2 2 0 tiny (S754_zero false)).
  - lia.
  - by vm_compute.
  - done.
  - exact sample_lr_batch.
  - exact sample_flat_batch.
  - exact sample_flat_batch.
  - lia.
  - done.
  - vm_compute. by repeat constructor.
  - by vm_compute.
  - by vm_compute.
  - vm_compute. tauto.
Defined.

(** X14 on a high-resolution image that is 1.0 everywhere. *)
Lemma psnr_of_constant_hr_witness :
  column_psnr 53 1024 log10_edges (array_of sample_sr) (array_of sample_const) 0
    = S754_infinity true ∧
  ∃ out top,
    visualize_generated_ct 53 1024 log10_edges format_special sample_visualizer
      sample_lr sample_sr sample_const 0 = Return out ∧
    get_axes (saved out) 0 0 = Some top ∧
    text <$> title top = Some ("PSNR = " +:+ format_special 2 (S754_infinity true) +:+ LF).
Proof.
  apply (psnr_of_constant_hr 53 1024 log10_edges format_special sample_visualizer
           sample_lr sample_sr sample_const 0 4 4 2 2 0 (F64.of_int 1)).
  - lia.
  - by vm_compute.
  - done.
  - exact sample_lr_batch.
  - exact sample_sr_batch.
  - exact sample_const_batch.
  - lia.
  - done.
  - vm_compute. by repeat constructor.
  - by vm_compute.
Defined.

(** *** The curve methods: the y-axis, and one method from the other *)

Lemma set_last_last y v : y ≠ [] → last (set_last y v) = Some v.
Proof.
  intros Hy. destruct y as [|x y]; [done|]. unfold set_last.
  rewrite last_lookup, length_insert. apply list_lookup_insert_eq. simpl. lia.
Qed.

Lemma linspace_last start stop num :
  (1 < num)%nat → last (linspace start stop num) = Some stop.
Proof.
  intros Hnum. pose proof (linspace_length start stop num) as Hlen. revert Hlen.
  unfold linspace. rewrite (bool_decide_eq_true_2 (1 < num)%nat) by done.
  rewrite set_last_length. intros Hlen. apply set_last_last.
  intros Hnil. rewrite Hnil in Hlen. simpl in Hlen. lia.
Qed.

(** X11.  Both curve methods read the y-limits of the axes once the two
    lines are drawn, freeze them, and put six ticks on the y-axis: the
    samples of [np.linspace] between the limits, the last of which is the
    upper limit.  Each tick has its label, the tick written with three
    decimals by [plot_loss] and with two by [plot_psnr]; the x-axis has as
    many labels as ticks too. *)
Theorem curve_methods_y_axis format_f get_ylim self axis train val :
  let loss := plot_loss format_f get_ylim self axis train val in
  let psnr := plot_psnr format_f get_ylim self axis train val in
  ∃ drawn,
    lines drawn = lines loss ∧ lines drawn = lines psnr ∧
    let lo := (get_ylim drawn).1 in
    let hi := (get_ylim drawn).2 in
    let yt := linspace lo hi 6 in
    ylim loss = Some (lo, hi) ∧ ylim psnr = Some (lo, hi) ∧
    yticks loss = Some yt ∧ yticks psnr = Some yt ∧
    length yt = 6%nat ∧ last yt = Some hi ∧
    ticklabels <$> yticklabels loss = Some (format_f 3%nat <$> yt) ∧
    ticklabels <$> yticklabels psnr = Some (format_f 2%nat <$> yt) ∧
    length <$> xticks loss = Some 11%nat ∧
    length ∘ ticklabels <$> xticklabels loss = Some 11%nat ∧
    length <$> xticks psnr = Some 11%nat ∧
    length ∘ ticklabels <$> xticklabels psnr = Some 11%nat.
Proof.
  destruct axis. unfold plot_loss, plot_psnr. simpl.
  match goal with
  | |- context [get_ylim ?a] => exists a; destruct (get_ylim a) as [lo hi]
  end.
  simpl. split_and!; try reflexivity.
  - apply linspace_length.
  - apply linspace_last. lia.
  - by rewrite length_fmap, linspace_length.
  - by rewrite !length_fmap, linspace_length.
  - by rewrite length_fmap, linspace_length.
  - by rewrite !length_fmap, linspace_length.
Qed.

(** X12.  [plot_psnr] is [plot_loss] with another title and another
    precision of the y-tick labels: on the same axes and series it leaves
    what [plot_loss] leaves once the title is set to PSNR and the labels of
    the same y-ticks are written with two decimals. *)
Theorem plot_psnr_as_plot_loss format_f get_ylim self axis train val :
  plot_psnr format_f get_ylim self axis train val =
  let ax := plot_loss format_f get_ylim self axis train val in
  set_title ("PSNR" +:+ LF) (labels_font (_fonts self)) (darkT (_colors self))
    (set_yticklabels (format_f 2%nat <$> default [] (yticks ax))
       (textS_font (_fonts self)) (darkT (_colors self)) ax).
Proof. by destruct axis. Qed.

(** *** The files of different epochs and of different methods *)

Lemma string_length_app (s1 s2 : string) :
  String.length (s1 +:+ s2) = (String.length s1 + String.length s2)%nat.
Proof.
  induction s1 as [|c s1 IH]; [done|].
  change (S (String.length (s1 +:+ s2)) = S (String.length s1 + String.length s2)).
  by rewrite IH.
Qed.

Lemma string_app_inv_tail (s a b : string) : a +:+ s = b +:+ s → a = b.
Proof.
  revert b. induction a as [|c a IH]; intros [|c' b] Heq; [done| | |].
  - apply (f_equal String.length) in Heq.
    change (String.length s = S (String.length (b +:+ s))) in Heq.
    rewrite string_length_app in Heq. lia.
  - apply (f_equal String.length) in Heq.
    change (S (String.length (a +:+ s)) = String.length s) in Heq.
    rewrite string_length_app in Heq. lia.
  - change (String c (a +:+ s) = String c' (b +:+ s)) in Heq.
    injection Heq as -> Heq. by rewrite (IH b).
Qed.

Lemma format_d_inj z z' : format_d z = format_d z' → z = z'.
Proof.
  unfold format_d. intros Heq. apply DecimalZ.to_int_inj.
  assert (∀ n, Z.to_int n ≠ Decimal.Pos Decimal.Nil ∧ Z.to_int n ≠ Decimal.Neg Decimal.Nil)
    as Hnil.
  { intros [|p|p]; split; try done; intros [= Hp];
      by apply DecimalPos.Unsigned.to_uint_nonnil in Hp. }
  apply (f_equal NilZero.int_of_string) in Heq.
  rewrite !NilZero.isi in Heq by apply Hnil. by injection Heq.
Qed.

Lemma path_join_inj dir x y :
  starts_with_sep x = false → starts_with_sep y = false →
  path_join dir x = path_join dir y → x = y.
Proof.
  unfold path_join. intros -> ->.
  destruct (bool_decide (dir = "") || ends_with_sep dir); intros Heq.
  - by apply (String.app_inj dir).
  - by apply (String.app_inj "/"), (String.app_inj dir).
Qed.

Section Files.
Variables prec emax : Z.
Variable log10 : float → float.
Variables format_f format_e : nat → float → string.
Variable get_ylim : Axes → float * float.
Variable self : Visualizer.

Lemma visualize_generated_ct_path lr_ct sr_ct hr_ct epoch out :
  visualize_generated_ct prec emax log10 format_f self lr_ct sr_ct hr_ct epoch = Return out →
  path out = path_join (_plots_dir self)
               ("visualization_epoch_" +:+ format_d (epoch + 1) +:+ ".svg").
Proof.
  rewrite visualize_generated_ct_unfold. intros Hout.
  py_done Hout. by injection Hout as <-.
Qed.

Lemma visualize_performance_path train_dict val_dict epoch out :
  visualize_performance format_f get_ylim self train_dict val_dict epoch = Return out →
  path out = path_join (_plots_dir self)
               ("performance_epoch_" +:+ format_d (epoch + 1) +:+ ".svg").
Proof.
  unfold visualize_performance. intros Hout.
  py_done Hout. by injection Hout as <-.
Qed.

Lemma visualize_full_slices_path lr_slice sr_slice hr_slice scores_dict ct_name epoch out :
  visualize_full_slices format_f format_e self lr_slice sr_slice hr_slice scores_dict
    ct_name epoch = Return out →
  path out = path_join (_plots_dir self)
               ("test_results_" +:+ ct_name +:+ "_" +:+ format_d epoch +:+ ".svg").
Proof.
  unfold visualize_full_slices. intros Hout.
  py_done Hout. by injection Hout as <-.
Qed.

(** X13.  No method overwrites a file it wrote for another epoch, and no
    method overwrites the file of another method: two calls of
    [visualize_generated_ct] that write the same file were given the same
    epoch, whatever the images; likewise for [visualize_performance], and
    for [visualize_full_slices] on the same slice name; and the files of
    the three methods are never the same. *)
Theorem saved_files_never_clash :
  (∀ lr_ct sr_ct hr_ct epoch out lr_ct' sr_ct' hr_ct' epoch' out',
     visualize_generated_ct prec emax log10 format_f self lr_ct sr_ct hr_ct epoch
       = Return out →
     visualize_generated_ct prec emax log10 format_f self lr_ct' sr_ct' hr_ct' epoch'
       = Return out' →
     (path out = path out' ↔ epoch = epoch')) ∧
  (∀ train_dict val_dict epoch out train_dict' val_dict' epoch' out',
     visualize_performance format_f get_ylim self train_dict val_dict epoch = Return out →
     visualize_performance format_f get_ylim self train_dict' val_dict' epoch'
       = Return out' →
     (path out = path out' ↔ epoch = epoch')) ∧
  (∀ lr_slice sr_slice hr_slice scores_dict epoch out
     lr_slice' sr_slice' hr_slice' scores_dict' epoch' out' ct_name,
     visualize_full_slices format_f format_e self lr_slice sr_slice hr_slice scores_dict
       ct_name epoch = Return out →
     visualize_full_slices format_f format_e self lr_slice' sr_slice' hr_slice'
       scores_dict' ct_name epoch' = Return out' →
     (path out = path out' ↔ epoch = epoch')) ∧
  (∀ lr_ct sr_ct hr_ct epoch out train_dict val_dict epoch' out'
     lr_slice sr_slice hr_slice scores_dict ct_name epoch'' out'',
     visualize_generated_ct prec emax log10 format_f self lr_ct sr_ct hr_ct epoch
       = Return out →
     visualize_performance format_f get_ylim self train_dict val_dict epoch' = Return out' →
     visualize_full_slices format_f format_e self lr_slice sr_slice hr_slice scores_dict
       ct_name epoch'' = Return out'' →
     path out ≠ path out' ∧ path out ≠ path out'' ∧ path out' ≠ path out'').
Proof.
  split_and!.
  - intros lr_ct sr_ct hr_ct epoch out lr_ct' sr_ct' hr_ct' epoch' out'
      ->%visualize_generated_ct_path ->%visualize_generated_ct_path.
    split; [|by intros ->]. intros Heq%path_join_inj; [|done..].
    apply String.app_inj, string_app_inv_tail, format_d_inj in Heq. lia.
  - intros train_dict val_dict epoch out train_dict' val_dict' epoch' out'
      ->%visualize_performance_path ->%visualize_performance_path.
    split; [|by intros ->]. intros Heq%path_join_inj; [|done..].
    apply String.app_inj, string_app_inv_tail, format_d_inj in Heq. lia.
  - intros lr_slice sr_slice hr_slice scores_dict epoch out
      lr_slice' sr_slice' hr_slice' scores_dict' epoch' out' ct_name
      ->%visualize_full_slices_path ->%visualize_full_slices_path.
    split; [|by intros ->]. intros Heq%path_join_inj; [|done..].
    apply (String.app_inj "test_results_"), (String.app_inj ct_name),
      (String.app_inj "_"), string_app_inv_tail, format_d_inj in Heq. done.
  - intros lr_ct sr_ct hr_ct epoch out train_dict val_dict epoch' out'
      lr_slice sr_slice hr_slice scores_dict ct_name epoch'' out''
      ->%visualize_generated_ct_path ->%visualize_performance_path
      ->%visualize_full_slices_path.
    split_and!; intros Heq%path_join_inj; try done;
      by apply (f_equal (String.get 0)) in Heq.
Qed.
End Files.
